(** * Receipt: field extraction from OCR receipt text (src/receipt.py)

    A shallow embedding of the [Receipt] class.  The development has four
    layers:

    - Python strings ([text] = list of characters) with the [str] methods the
      class calls: [split], [strip], [replace], [in], [int];
    - the fragment of Python's [re] syntax that the class's patterns use,
      with a backtracking matcher in continuation-passing style, [re.search]
      and [re.findall] (flags=re.M throughout, as in the source);
    - the [Receipt] object as a record with its two attributes, and its
      methods in a state-and-exception monad;
    - the properties of the extraction.

    Characters are code points below 256 (Latin-1); the classes [\d], [\s],
    [\w] and [str.strip]'s whitespace are Python's on that range.  [int]
    refuses a string of more than 4300 digits, CPython's default
    ([sys.int_info.default_max_str_digits]). *)

From Stdlib Require Import Ascii String ZArith NArith Lia Bool Arith.
From Stdlib Require Import List.
Import ListNotations.

Local Open Scope list_scope.

Arguments Ascii.eqb : simpl never.

(** ** Python strings *)

Definition text := list ascii.

Definition str (s : string) : text := list_ascii_of_string s.

Definition nl : ascii := "010"%char.

(** [unlines [l1; ...; ln]] is the text l1 \n ... \n ln. *)
Fixpoint unlines (ls : list text) : text :=
  match ls with
  | [] => []
  | [l] => l
  | l :: ls' => l ++ nl :: unlines ls'
  end.

Definition code (c : ascii) : N := N_of_ascii c.

Definition in_range (lo hi : N) (c : ascii) : bool :=
  (lo <=? code c)%N && (code c <=? hi)%N.

(** [\d] on Latin-1: the ten ASCII digits. *)
Definition is_digit (c : ascii) : bool := in_range 48 57 c.

(** [\s] and [str.isspace] on Latin-1: TAB..CR, FS..US, SPACE, NEL, NBSP. *)
Definition is_space (c : ascii) : bool :=
  in_range 9 13 c || in_range 28 32 c || (code c =? 133)%N || (code c =? 160)%N.

(** [\w] on Latin-1: alphanumeric (letters, decimal digits and the numeric
    characters such as superscripts and fractions) or underscore. *)
Definition is_word (c : ascii) : bool :=
  in_range 48 57 c || in_range 65 90 c || in_range 97 122 c || (code c =? 95)%N
  || (code c =? 170)%N || in_range 178 179 c || (code c =? 181)%N
  || in_range 185 186 c || in_range 188 190 c
  || in_range 192 214 c || in_range 216 246 c || in_range 248 255 c.

Definition text_eqb (a b : text) : bool :=
  if list_eq_dec ascii_dec a b then true else false.

(** [s.startswith(p)] *)
Fixpoint startswith (p s : text) : bool :=
  match p, s with
  | [], _ => true
  | a :: p', b :: s' => Ascii.eqb a b && startswith p' s'
  | _ :: _, [] => false
  end.

(** [sep in s] for a non-empty [sep]. *)
Fixpoint contains (sep s : text) : bool :=
  match s with
  | [] => match sep with [] => true | _ => false end
  | _ :: s' => startswith sep s || contains sep s'
  end.

(** [s.split(sep)] for a non-empty [sep]: [cur] is the piece being built
    (reversed), [skip] counts the characters of a separator still to pass. *)
Fixpoint split_aux (sep : text) (skip : nat) (cur : text) (s : text)
  : list text :=
  match s with
  | [] => [rev cur]
  | c :: s' =>
      match skip with
      | S n => split_aux sep n cur s'
      | O =>
          if startswith sep s
          then rev cur :: split_aux sep (length sep - 1) [] s'
          else split_aux sep 0 (c :: cur) s'
      end
  end.

Definition split (sep s : text) : list text := split_aux sep 0 [] s.

(** [s.replace(old, new)] for a non-empty [old]. *)
Fixpoint replace_aux (old new : text) (skip : nat) (s : text) : text :=
  match s with
  | [] => []
  | c :: s' =>
      match skip with
      | S n => replace_aux old new n s'
      | O =>
          if startswith old s
          then new ++ replace_aux old new (length old - 1) s'
          else c :: replace_aux old new 0 s'
      end
  end.

Definition replace (old new s : text) : text := replace_aux old new 0 s.

Fixpoint lstrip (s : text) : text :=
  match s with
  | c :: s' => if is_space c then lstrip s' else s
  | [] => []
  end.

Definition rstrip (s : text) : text := rev (lstrip (rev s)).

(** [s.strip()] *)
Definition strip (s : text) : text := rstrip (lstrip s).

(** ** Exceptions *)

Inductive exn : Type :=
| AttributeError
| ValueError
| IndexError
| TypeError.

Definition result (A : Type) : Type := (exn + A)%type.

Definition rbind {A B} (x : result A) (f : A -> result B) : result B :=
  match x with
  | inl e => inl e
  | inr a => f a
  end.

Fixpoint mapR {A B} (f : A -> result B) (l : list A) : result (list B) :=
  match l with
  | [] => inr []
  | a :: l' =>
      rbind (f a) (fun b => rbind (mapR f l') (fun bs => inr (b :: bs)))
  end.

(** ** [int(s)] on a string, base 10 *)

Definition digit_val (c : ascii) : Z := Z.of_N (code c) - 48.

(** Digits with single underscores between them; [us] records that the
    previous character was an underscore. *)
Fixpoint int_digits (acc : Z) (us : bool) (s : text) : option Z :=
  match s with
  | [] => if us then None else Some acc
  | c :: s' =>
      if is_digit c then int_digits (10 * acc + digit_val c) false s'
      else if Ascii.eqb c "_" then
             if us then None else int_digits acc true s'
           else None
  end.

Definition int_unsigned (s : text) : option Z :=
  match s with
  | c :: _ => if is_digit c then int_digits 0 false s else None
  | [] => None
  end.

Definition int_signed (s : text) : option Z :=
  match s with
  | c :: s' =>
      if Ascii.eqb c "-" then option_map Z.opp (int_unsigned s')
      else if Ascii.eqb c "+" then int_unsigned s'
           else int_unsigned s
  | [] => None
  end.

(** The whitespace [int] skips at both ends: [str.strip]'s, except that the
    separators FS..US are not accepted. *)
Definition is_int_space (c : ascii) : bool :=
  in_range 9 13 c || (code c =? 32)%N || (code c =? 133)%N || (code c =? 160)%N.

Fixpoint int_lstrip (s : text) : text :=
  match s with
  | c :: s' => if is_int_space c then int_lstrip s' else s
  | [] => []
  end.

Definition int_strip (s : text) : text :=
  rev (int_lstrip (rev (int_lstrip s))).

(** [sys.int_info.default_max_str_digits] *)
Definition int_max_str_digits : N := 4300.

(** The number of digits of a string (underscores, sign and whitespace do
    not count). *)
Definition digit_count (s : text) : N := N.of_nat (length (filter is_digit s)).

(** [int(s)]: a ValueError for a string that is not an integer literal, and
    for one of more than [int_max_str_digits] digits. *)
Definition py_int (s : text) : result Z :=
  match int_signed (int_strip s) with
  | Some z =>
      if (int_max_str_digits <? digit_count s)%N then inl ValueError
      else inr z
  | None => inl ValueError
  end.

(** [max(l)] and [sum(l)] on a list of integers. *)
Definition py_max (l : list Z) : result Z :=
  match l with
  | [] => inl ValueError
  | x :: l' => inr (fold_left Z.max l' x)
  end.

Definition py_sum (l : list Z) : Z := fold_left Z.add l 0%Z.

(** [x in l] *)
Definition py_in (x : Z) (l : list Z) : bool := existsb (Z.eqb x) l.

(** ** Regular expressions: the fragment of [re] the class uses *)

Inductive regex : Type :=
| Eps                                   (* empty pattern *)
| Chr (c : ascii)                       (* a literal character *)
| Dot                                   (* .   any character but newline *)
| Digit                                 (* \d *)
| Space                                 (* \s *)
| Word                                  (* \w *)
| Range (lo hi : ascii)                 (* [lo-hi] *)
| Bol                                   (* ^   with re.M *)
| Eol                                   (* $   with re.M *)
| WordB                                 (* \b *)
| Seq (r1 r2 : regex)                   (* r1 r2 *)
| Alt (r1 r2 : regex)                   (* r1|r2 *)
| Rep (r : regex) (lo : nat) (hi : option nat)  (* greedy r{lo,hi} *)
| Group (i : nat) (r : regex)           (* capturing group number i *)
| Ahead (r : regex)                     (* (?=r) *)
| Behind (r : regex).                   (* (?<=r), r of fixed width *)

(** A literal string. *)
Fixpoint lit (s : text) : regex :=
  match s with
  | [] => Eps
  | c :: s' => Seq (Chr c) (lit s')
  end.

Definition Star (r : regex) : regex := Rep r 0 None.
Definition Plus (r : regex) : regex := Rep r 1 None.
Definition Opt (r : regex) : regex := Rep r 0 (Some 1).
Definition Times (n : nat) (r : regex) : regex := Rep r n (Some n).

(** The matcher's position in the subject: the characters before it (nearest
    first), the characters after it, and the groups captured so far (latest
    first). *)
Record mstate : Type := MState {
  before : text;
  after : text;
  groups : list (nat * text)
}.

Definition cont : Type := mstate -> option mstate.

Definition step (p : ascii -> bool) (s : mstate) (k : cont) : option mstate :=
  match after s with
  | c :: rest =>
      if p c then k (MState (c :: before s) rest (groups s)) else None
  | [] => None
  end.

Definition at_bol (s : mstate) : bool :=
  match before s with
  | [] => true
  | c :: _ => Ascii.eqb c nl
  end.

Definition at_eol (s : mstate) : bool :=
  match after s with
  | [] => true
  | c :: _ => Ascii.eqb c nl
  end.

Definition at_boundary (s : mstate) : bool :=
  let that := match before s with c :: _ => is_word c | [] => false end in
  let this := match after s with c :: _ => is_word c | [] => false end in
  xorb this that.

(** The text consumed between position [s] and a later position [s']. *)
Definition consumed (s s' : mstate) : text :=
  firstn (length (after s) - length (after s')) (after s).

Definition set_group (i : nat) (s s' : mstate) : mstate :=
  MState (before s') (after s') ((i, consumed s s') :: groups s').

Definition with_groups (s s' : mstate) : mstate :=
  MState (before s) (after s) (groups s').

(** Move [w] characters back. *)
Definition rewind (w : nat) (s : mstate) : mstate :=
  MState (skipn w (before s)) (rev (firstn w (before s)) ++ after s) (groups s).

Definition opt_pred (hi : option nat) : option nat := option_map pred hi.

(** Greedy repetition of [body], at least [lo] and at most [hi] times.  Once
    [lo] iterations are done a further one is kept only if it consumed
    something, so each kept iteration uses up one unit of [lo] or one
    character: started with [fuel = lo + length (after s)] the loop never
    stops for lack of fuel. *)
Fixpoint rep (body : mstate -> cont -> option mstate) (fuel lo : nat)
  (hi : option nat) (s : mstate) (k : cont) {struct fuel} : option mstate :=
  match fuel with
  | O => match lo with O => k s | S _ => None end
  | S fuel' =>
      match lo with
      | S lo' => body s (fun s' => rep body fuel' lo' (opt_pred hi) s' k)
      | O =>
          match hi with
          | Some O => k s
          | _ =>
              match
                body s (fun s' =>
                  if length (after s') <? length (after s)
                  then rep body fuel' 0 (opt_pred hi) s' k
                  else None)
              with
              | Some x => Some x
              | None => k s
              end
          end
      end
  end.

(** The width of a pattern that matches strings of one length only. *)
Fixpoint fixed_width (r : regex) : option nat :=
  match r with
  | Eps | Bol | Eol | WordB | Ahead _ | Behind _ => Some 0
  | Chr _ | Dot | Digit | Space | Word | Range _ _ => Some 1
  | Seq r1 r2 =>
      match fixed_width r1, fixed_width r2 with
      | Some a, Some b => Some (a + b)
      | _, _ => None
      end
  | Alt r1 r2 =>
      match fixed_width r1, fixed_width r2 with
      | Some a, Some b => if a =? b then Some a else None
      | _, _ => None
      end
  | Rep r lo hi =>
      match fixed_width r, hi with
      | Some a, Some h => if lo =? h then Some (lo * a) else None
      | _, _ => None
      end
  | Group _ r => fixed_width r
  end.

(** [m r s k]: match [r] at [s] and hand the position reached to [k]; when
    [k] refuses it, try the next way of matching [r], in the order of a
    backtracking matcher (left alternative first, longest repetition
    first). *)
Fixpoint m (r : regex) (s : mstate) (k : cont) {struct r} : option mstate :=
  match r with
  | Eps => k s
  | Chr c => step (Ascii.eqb c) s k
  | Dot => step (fun x => negb (Ascii.eqb x nl)) s k
  | Digit => step is_digit s k
  | Space => step is_space s k
  | Word => step is_word s k
  | Range lo hi => step (in_range (code lo) (code hi)) s k
  | Bol => if at_bol s then k s else None
  | Eol => if at_eol s then k s else None
  | WordB => if at_boundary s then k s else None
  | Seq r1 r2 => m r1 s (fun s1 => m r2 s1 k)
  | Alt r1 r2 =>
      match m r1 s k with
      | Some x => Some x
      | None => m r2 s k
      end
  | Rep r' lo hi => rep (m r') (lo + length (after s)) lo hi s k
  | Group i r' => m r' s (fun s' => k (set_group i s s'))
  | Ahead r' =>
      match m r' s Some with
      | Some s' => k (with_groups s s')
      | None => None
      end
  | Behind r' =>
      match fixed_width r' with
      | Some w =>
          if w <=? length (before s) then
            match m r' (rewind w s) Some with
            | Some s' => k (with_groups s s')
            | None => None
            end
          else None
      | None => None
      end
  end.

(** One attempt of the pattern at the position between [pre] (reversed) and
    [rest].  With [must_advance] an empty match is refused, and the matcher
    backtracks for a non-empty one. *)
Definition match_at (r : regex) (pre rest : text) (must_advance : bool)
  : option mstate :=
  m r (MState pre rest [])
    (fun s' =>
       if must_advance && (length (after s') =? length rest)
       then None else Some s').

(** A match: the text matched and the groups that took part. *)
Record rmatch : Type := RMatch {
  group0 : text;
  mgroups : list (nat * text)
}.

Definition mk_match (rest : text) (s' : mstate) : rmatch :=
  RMatch (firstn (length rest - length (after s')) rest) (groups s').

(** [re.search(r, s, flags=re.M)]: the first position, from the left, at
    which the pattern matches. *)
Fixpoint search_from (r : regex) (pre rest : text) : option rmatch :=
  match match_at r pre rest false with
  | Some s' => Some (mk_match rest s')
  | None =>
      match rest with
      | [] => None
      | c :: rest' => search_from r (c :: pre) rest'
      end
  end.

Definition re_search (r : regex) (s : text) : option rmatch :=
  search_from r [] s.

(** Number of capturing groups of a pattern. *)
Fixpoint ngroups (r : regex) : nat :=
  match r with
  | Seq r1 r2 | Alt r1 r2 => ngroups r1 + ngroups r2
  | Rep r' _ _ | Ahead r' | Behind r' => ngroups r'
  | Group _ r' => S (ngroups r')
  | _ => 0
  end.

(** [mt.group(i)] with [None] rendered as the empty string, as [findall]
    does. *)
Fixpoint group_or_empty (i : nat) (gs : list (nat * text)) : text :=
  match gs with
  | [] => []
  | (j, t) :: gs' => if i =? j then t else group_or_empty i gs'
  end.

(** An element of [findall]'s result: a string when the pattern has at most
    one group, a tuple of strings otherwise. *)
Inductive fa_item : Type :=
| FStr (s : text)
| FTuple (l : list text).

Definition item_of (r : regex) (mt : rmatch) : fa_item :=
  match ngroups r with
  | 0 => FStr (group0 mt)
  | 1 => FStr (group_or_empty 1 (mgroups mt))
  | n => FTuple (map (fun i => group_or_empty i (mgroups mt)) (seq 1 n))
  end.

(** [re.findall(r, s, flags=re.M)].  [skip] is the distance from the current
    position to the end of the previous match, where the next search starts.
    After an empty match the search resumes at the same position but refuses
    an empty match there. *)
Fixpoint findall_from (r : regex) (pre rest : text) (skip : nat)
  : list fa_item :=
  let next (n : nat) : list fa_item :=
    match rest with
    | [] => []
    | c :: rest' => findall_from r (c :: pre) rest' n
    end in
  match skip with
  | S n => next n
  | O =>
      match match_at r pre rest false with
      | None => next 0
      | Some s1 =>
          let n1 := length rest - length (after s1) in
          item_of r (mk_match rest s1) ::
          match n1 with
          | S n => next n
          | O =>
              match match_at r pre rest true with
              | None => next 0
              | Some s2 =>
                  item_of r (mk_match rest s2) ::
                  next (length rest - length (after s2) - 1)
              end
          end
      end
  end.

Definition re_findall (r : regex) (s : text) : list fa_item :=
  findall_from r [] s 0.

(** Concatenation of a sequence of patterns. *)
Fixpoint cat (rs : list regex) : regex :=
  match rs with
  | [] => Eps
  | r :: rs' => Seq r (cat rs')
  end.

(** The class's patterns. *)
Module Pattern.

(** r"^(\d{2}\/){2}(\d{4})$" *)
Definition date : regex :=
  cat [Bol; Times 2 (Group 1 (cat [Times 2 Digit; Chr "/"]));
       Group 2 (Times 4 Digit); Eol].

(** r".*(?=\nVENDEDOR)" *)
Definition address : regex :=
  cat [Star Dot; Ahead (lit (nl :: str "VENDEDOR"))].

(** r"(?<=TIQUETE\s).*" *)
Definition invoice_number : regex :=
  cat [Behind (cat [lit (str "TIQUETE"); Space]); Star Dot].

(** r"^\d+$" *)
Definition integer_line : regex := cat [Bol; Plus Digit; Eol].

(** r"^\d+-$" *)
Definition negative_line : regex := cat [Bol; Plus Digit; Chr "-"; Eol].

(** r"(?:\b(\d{13})\s(G)\b\n)|(?:\b(SUBTOTAL)\b\n)?", where the
    group G is a starred dot *)
Definition sku_and_description : regex :=
  Alt (cat [WordB; Group 1 (Times 13 Digit); Space; Group 2 (Star Dot);
            WordB; Chr nl])
      (Opt (cat [WordB; Group 3 (lit (str "SUBTOTAL")); WordB; Chr nl])).

(** r"\b\d+\s?\w?\b\n" *)
Definition price_line : regex :=
  cat [WordB; Plus Digit; Opt Space; Opt Word; WordB; Chr nl].

(** r"\b[0-9]{3,}\s\w\b\n" *)
Definition taxed_line : regex :=
  cat [WordB; Rep (Range "0" "9") 3 None; Space; Word; WordB; Chr nl].

(** r"(?:\b\d+\s?\w?\b\n)+(?:\b[0-9]{3,}\s\w\b\n)+(?:\b\d+\s?\w?\b\n)+" *)
Definition prices : regex :=
  cat [Plus price_line; Plus taxed_line; Plus price_line].

End Pattern.

(** ** The [Receipt] object and its methods *)

(** The instance attributes: [file], set by [__init__], and [numbers], which
    does not exist until [get_subtotal] assigns it. *)
Record Receipt : Type := MkReceipt {
  file : text;
  numbers : option (list Z)
}.

(** [__init__], after the JSON file has been read: [txt] is
    [data['pages'][0]['fullTextAnnotation']['text']]. *)
Definition init (txt : text) : Receipt := MkReceipt txt None.

(** A method body: it runs on the object, returns or raises, and leaves the
    object in a new state either way. *)
Definition M (A : Type) : Type := Receipt -> result A * Receipt.

Definition ret {A} (a : A) : M A := fun self => (inr a, self).

Definition raise {A} (e : exn) : M A := fun self => (inl e, self).

Definition bind {A B} (x : M A) (f : A -> M B) : M B :=
  fun self =>
    match x self with
    | (inl e, self') => (inl e, self')
    | (inr a, self') => f a self'
    end.

Definition lift {A} (x : result A) : M A := fun self => (x, self).

Notation "x <- c1 ;; c2" := (bind c1 (fun x => c2))
  (at level 61, c1 at next level, right associativity).
Notation "c1 ;;; c2" := (bind c1 (fun _ => c2))
  (at level 61, right associativity).

Definition self_file : M text := fun self => (inr (file self), self).

Definition self_numbers : M (list Z) :=
  fun self =>
    match numbers self with
    | Some l => (inr l, self)
    | None => (inl AttributeError, self)
    end.

Definition set_numbers (l : list Z) : M unit :=
  fun self => (inr tt, MkReceipt (file self) (Some l)).

(** [l[i]] *)
Definition index {A} (l : list A) (i : nat) : result A :=
  match nth_error l i with
  | Some x => inr x
  | None => inl IndexError
  end.

(** Operations on an element of [findall]'s result. *)
Definition item_index (x : fa_item) (i : nat) : result text :=
  match x with
  | FStr s => rbind (index s i) (fun c => inr [c])
  | FTuple l => index l i
  end.

Definition item_int (x : fa_item) : result Z :=
  match x with
  | FStr s => py_int s
  | FTuple _ => inl TypeError
  end.

Definition item_replace (old new : text) (x : fa_item) : result text :=
  match x with
  | FStr s => inr (replace old new s)
  | FTuple _ => inl AttributeError
  end.

Definition item_split (sep : text) (x : fa_item) : result (list text) :=
  match x with
  | FStr s => inr (split sep s)
  | FTuple _ => inl AttributeError
  end.

(** [re.search(pattern, self.file, flags=re.M).group()]: [re.search] returns
    [None] when there is no match, and [None.group] raises. *)
Definition search_pattern (pattern : regex) : M text :=
  f <- self_file ;;
  match re_search pattern f with
  | Some mt => ret (group0 mt)
  | None => raise AttributeError
  end.

Definition get_date : M text := search_pattern Pattern.date.

Definition get_address : M text :=
  s <- search_pattern Pattern.address ;;
  first <- lift (index (split (str "TEL:") s) 0) ;;
  ret (strip first).

Definition get_invoice_number : M text :=
  search_pattern Pattern.invoice_number.

Definition get_all_matches (pattern : regex) : M (list fa_item) :=
  f <- self_file ;;
  ret (re_findall pattern f).

Definition get_subtotal : M Z :=
  xs <- get_all_matches Pattern.integer_line ;;
  ns <- lift (mapR item_int xs) ;;
  set_numbers ns ;;;
  ns' <- self_numbers ;;
  lift (py_max ns').

Definition get_total : M Z :=
  negative_numbers <- get_all_matches Pattern.negative_line ;;
  negative_numbers <- lift (mapR (fun x =>
      rbind (item_replace (str "-") [] x) (fun y =>
      rbind (py_int y) (fun n => inr (n * -1)%Z))) negative_numbers) ;;
  let discounts := py_sum negative_numbers in
  s1 <- get_subtotal ;;
  ns <- self_numbers ;;
  if py_in (s1 + discounts)%Z ns then
    s2 <- get_subtotal ;;
    ret (s2 + discounts)%Z
  else get_subtotal.

(** The loop of [get_raw_sku_and_descriptions] over [dirty_items]; [out] is
    the list built so far. *)
Fixpoint sku_loop (dirty_items : list fa_item) (out : list (list text))
  : result (list (list text)) :=
  match dirty_items with
  | [] => inr out
  | item :: rest =>
      rbind (item_index item 0) (fun i0 =>
      rbind (if negb (text_eqb i0 [])
             then rbind (item_index item 1) (fun i1 =>
                         inr (negb (text_eqb i1 [])))
             else inr false) (fun both =>
      if both then
        rbind (item_index item 1) (fun i1 =>
        sku_loop rest (out ++ [[i0; i1]]))
      else
        rbind (item_index item 2) (fun i2 =>
        if negb (text_eqb i2 [])
        then sku_loop rest (out ++ [[[]; i2]])
        else sku_loop rest out)))
  end.

Definition get_raw_sku_and_descriptions : M (list (list text)) :=
  dirty_items <- get_all_matches Pattern.sku_and_description ;;
  lift (sku_loop dirty_items []).

(** The inner loop of [get_raw_prices], over the lines of one matched
    block. *)
Fixpoint price_lines_loop (lines : list text) (prices_list : list (list text))
  : result (list (list text)) :=
  match lines with
  | [] => inr prices_list
  | elem2 :: rest =>
      if negb (text_eqb elem2 []) && negb (text_eqb elem2 (str " ")) then
        if contains (str " ") elem2 then
          let parts := split (str " ") elem2 in
          rbind (index parts 0) (fun a =>
          rbind (index parts 1) (fun b =>
          price_lines_loop rest (prices_list ++ [[a; b]])))
        else price_lines_loop rest (prices_list ++ [[elem2; []]])
      else price_lines_loop rest prices_list
  end.

(** The outer loop, over the matched blocks. *)
Fixpoint prices_loop (raw_prices : list fa_item)
  (prices_list : list (list text)) : result (list (list text)) :=
  match raw_prices with
  | [] => inr prices_list
  | elem :: rest =>
      rbind (item_split [nl] elem) (fun lines =>
      rbind (price_lines_loop lines prices_list) (fun prices_list' =>
      prices_loop rest prices_list'))
  end.

Definition get_raw_prices : M (list (list text)) :=
  raw_prices <- get_all_matches Pattern.prices ;;
  lift (prices_loop raw_prices []).

(** An element of [complete_items]. *)
Record LineItem : Type := MkLineItem {
  sku : Z;
  description : text;
  total : Z;
  taxCode : text
}.

(** [l[i].append(v)] on a list of lists. *)
Definition append_at (l : list (list text)) (i : nat) (v : text)
  : result (list (list text)) :=
  match nth_error l i with
  | Some x => inr (firstn i l ++ (x ++ [v]) :: skipn (S i) l)
  | None => inl IndexError
  end.

(** [for i in limit:] appending the two fields of [prices_and_tax_codes[i]]
    to [sku_and_descriptions[i]]. *)
Fixpoint merge_loop (limit : list nat)
  (sku_and_descriptions prices_and_tax_codes : list (list text))
  : result (list (list text)) :=
  match limit with
  | [] => inr sku_and_descriptions
  | i :: limit' =>
      rbind (index prices_and_tax_codes i) (fun p =>
      rbind (index p 0) (fun p0 =>
      rbind (append_at sku_and_descriptions i p0) (fun sd1 =>
      rbind (index prices_and_tax_codes i) (fun p' =>
      rbind (index p' 1) (fun p1 =>
      rbind (append_at sd1 i p1) (fun sd2 =>
      merge_loop limit' sd2 prices_and_tax_codes))))))
  end.

(** [for x in sku_and_descriptions:] building [complete_items]. *)
Fixpoint complete_loop (sku_and_descriptions : list (list text))
  (complete_items : list LineItem) : result (list LineItem) :=
  match sku_and_descriptions with
  | [] => inr complete_items
  | x :: rest =>
      rbind (if length x =? 4
             then rbind (index x 1) (fun x1 =>
                         inr (negb (text_eqb x1 (str "SUBTOTAL"))))
             else inr false) (fun keep =>
      if keep then
        rbind (index x 0) (fun x0 =>
        rbind (py_int x0) (fun s =>
        rbind (index x 1) (fun x1 =>
        rbind (index x 2) (fun x2 =>
        rbind (py_int x2) (fun t =>
        rbind (index x 3) (fun x3 =>
        complete_loop rest
          (complete_items ++ [MkLineItem s x1 t x3])))))))
      else complete_loop rest complete_items)
  end.

(** The body of [get_items_group] once its two local lists are bound. *)
Definition items_group_of
  (sku_and_descriptions prices_and_tax_codes : list (list text))
  : result (list LineItem) :=
  let limit :=
    seq 0 (Nat.min (length sku_and_descriptions)
                   (length prices_and_tax_codes)) in
  rbind (merge_loop limit sku_and_descriptions prices_and_tax_codes)
    (fun merged => complete_loop merged []).

Definition get_items_group : M (list LineItem) :=
  sku_and_descriptions <- get_raw_sku_and_descriptions ;;
  prices_and_tax_codes <- get_raw_prices ;;
  lift (items_group_of sku_and_descriptions prices_and_tax_codes).

(** The dictionary [get_receipt_dictionary] returns; its keys are fixed. *)
Record ReceiptDict : Type := MkReceiptDict {
  date : text;
  storeAddress : text;
  invoiceNumber : text;
  subtotal : Z;
  total_ : Z;
  lineItems : list LineItem
}.

Definition get_receipt_dictionary : M ReceiptDict :=
  d <- get_date ;;
  a <- get_address ;;
  n <- get_invoice_number ;;
  s <- get_subtotal ;;
  t <- get_total ;;
  l <- get_items_group ;;
  ret (MkReceiptDict d a n s t l).


(** * Notions used by the statements *)

(** ** Lines of a text *)

(** [s.split('\n')], by recursion on the text. *)
Fixpoint lines (s : text) : list text :=
  match s with
  | [] => [[]]
  | c :: s' =>
      if Ascii.eqb c nl then [] :: lines s'
      else match lines s' with
           | l :: ls => (c :: l) :: ls
           | [] => [[c]]
           end
  end.

Definition no_nl (l : text) : Prop := Forall (fun c => c <> nl) l.

(** The longest prefix of characters in a class, and what follows it. *)
Fixpoint span (p : ascii -> bool) (l : text) : text * text :=
  match l with
  | [] => ([], [])
  | c :: l' =>
      if p c then let (a, b) := span p l' in (c :: a, b) else ([], l)
  end.

Definition null (l : text) : bool :=
  match l with [] => true | _ => false end.

(** A line that consists solely of digits. *)
Definition is_integer_line (l : text) : bool :=
  negb (null l) && forallb is_digit l.

(** A line of digits followed by a trailing minus sign. *)
Definition is_negative_line (l : text) : bool :=
  let (ds, r) := span is_digit l in
  negb (null ds) && text_eqb r (str "-").

(** The value of a string of decimal digits. *)
Definition dval (ds : text) : Z :=
  fold_left (fun a c => (10 * a + digit_val c)%Z) ds 0%Z.

(** The freestanding integers of a text, in line order. *)
Definition numbers_of (t : text) : list Z :=
  map dval (filter is_integer_line (lines t)).

(** The sum of the negated amounts of the discount lines. *)
Definition discounts_of (t : text) : Z :=
  py_sum (map (fun l => (dval (fst (span is_digit l)) * -1)%Z)
              (filter is_negative_line (lines t))).

(** The line just before the first line (after the first) that begins with
    VENDEDOR. *)
Fixpoint line_before_vendedor (ls : list text) : option text :=
  match ls with
  | l :: ((l' :: _) as tl) =>
      if startswith (str "VENDEDOR") l' then Some l
      else line_before_vendedor tl
  | _ => None
  end.

(** The part of a string before the first occurrence of [sep]. *)
Fixpoint truncate_at (sep s : text) : text :=
  match s with
  | [] => []
  | c :: s' => if startswith sep s then [] else c :: truncate_at sep s'
  end.

(** The position after the characters [pre] (nearest first) is at the start
    of a line. *)
Definition bol (pre : text) : bool :=
  match pre with
  | [] => true
  | c :: _ => Ascii.eqb c nl
  end.

(** The end of a line: the end of the text or a newline. *)
Definition line_end (tail : text) : Prop :=
  match tail with
  | [] => True
  | c :: _ => c = nl
  end.

(** [r] matches exactly the whole lines that satisfy [P], captures nothing,
    and matches nowhere else. *)
Record line_pattern (r : regex) (P : text -> bool) : Prop := {
  lp_groups : ngroups r = 0;
  lp_nonempty : P [] = false;
  lp_inside : forall pre rest,
      bol pre = false -> match_at r pre rest false = None;
  lp_line : forall pre line tail,
      bol pre = true -> no_nl line -> line_end tail ->
      match_at r pre (line ++ tail) false =
      if P line then Some (MState (rev line ++ pre) tail []) else None
}.

Definition starts_with_digit (l : text) : Prop :=
  match l with
  | c :: _ => is_digit c = true
  | [] => False
  end.

Definition no_leading_digit (l : text) : Prop :=
  match l with
  | c :: _ => is_digit c = false
  | [] => True
  end.

(** ** Line items *)

(** A two-element list, as both raw extractors produce. *)
Definition is_pair (x : list text) : Prop := length x = 2.

(** The list [sku_and_descriptions] after the merging loop: the first
    entries extended by the fields of the price entry at the same index, the
    entries beyond the shorter list untouched. *)
Fixpoint merged (ds ps : list (list text)) : list (list text) :=
  match ds, ps with
  | d :: ds', p :: ps' => (d ++ p) :: merged ds' ps'
  | _, _ => ds
  end.

(** The line items as the specification words them: zip the two lists up to
    the shorter one, keep the four-field records whose description is not
    SUBTOTAL, coerce [sku] and [total]. *)
Fixpoint zip_records (ds ps : list (list text)) : list (list text) :=
  match ds, ps with
  | d :: ds', p :: ps' => (d ++ p) :: zip_records ds' ps'
  | _, _ => []
  end.

Definition kept (x : list text) : bool :=
  (length x =? 4) && negb (text_eqb (nth 1 x []) (str "SUBTOTAL")).

Definition coerce (x : list text) : result LineItem :=
  rbind (py_int (nth 0 x [])) (fun s =>
  rbind (py_int (nth 2 x [])) (fun t =>
  inr (MkLineItem s (nth 1 x []) t (nth 3 x [])))).

Definition buildLineItems_spec (ds ps : list (list text))
  : result (list LineItem) :=
  mapR coerce (filter kept (zip_records ds ps)).

(** ** Example receipts *)

Definition text_of (ls : list string) : text := unlines (map str ls).

(** "123 Main St\nTEL:555\nVENDEDOR\n..." *)
Definition address_example : text :=
  text_of ["123 Main St"; "TEL:555"; "VENDEDOR"; "..."]%string.

(** "123 Main St TEL:555\nVENDEDOR\n..." *)
Definition address_one_line_example : text :=
  text_of ["123 Main St TEL:555"; "VENDEDOR"; "..."]%string.

(** "10\n25\n7" *)
Definition subtotal_example : text := text_of ["10"; "25"; "7"]%string.

(** "100\n15\n85\n15-" and the same without the line 85. *)
Definition total_example : text :=
  text_of ["100"; "15"; "85"; "15-"]%string.

Definition total_absent_example : text :=
  text_of ["100"; "15"; "15-"]%string.

Definition descriptions_example : list (list text) :=
  [[str "1234567890123"; str "WIDGET"]; [[]; str "SUBTOTAL"]].

Definition prices_example : list (list text) :=
  [[str "500"; str "A"]; [str "1000"; []]].

(** A receipt with every field. *)
Definition full_example : text :=
  text_of ["TIENDA 1 CRA 7 TEL: 555"; "VENDEDOR 12"; "01/02/2023";
           "TIQUETE 00045"; "1234567890123 WIDGET"; "SUBTOTAL";
           "500"; "1000 A"; "77"; "600"; "100-"; "FIN"]%string.

(** * Further notions *)

(** ** The name of the JSON file *)

(** The path [create_json_file] opens for writing: "sample", then "_" and
    the invoice number with its spaces replaced by underscores when that is
    not empty, then ".json".  The serialisation ([json.dumps]), the write and
    the [print] are outside the model. *)
Definition json_file_name (receipt_dictionary : ReceiptDict) : text :=
  let file_name := str "sample" in
  let invoice :=
    replace (str " ") (str "_") (invoiceNumber receipt_dictionary) in
  let file_name :=
    if negb (text_eqb invoice []) then file_name ++ str "_" ++ invoice
    else file_name in
  file_name ++ str ".json".

Definition create_json_file_name : M text :=
  receipt_dictionary <- get_receipt_dictionary ;;
  ret (json_file_name receipt_dictionary).

(** ** Dates and invoice numbers *)

(** A line of the form dd/dd/dddd. *)
Definition is_date_line (l : text) : bool :=
  match l with
  | [d1; d2; s1; d3; d4; s2; y1; y2; y3; y4] =>
      is_digit d1 && is_digit d2 && Ascii.eqb "/" s1 &&
      is_digit d3 && is_digit d4 && Ascii.eqb "/" s2 &&
      is_digit y1 && is_digit y2 && is_digit y3 && is_digit y4
  | _ => false
  end.

Definition not_nl (c : ascii) : bool := negb (Ascii.eqb c nl).

(** The rest of the current line. *)
Definition rest_of_line (s : text) : text := fst (span not_nl s).

(** [s] begins with TIQUETE and a whitespace character: what follows. *)
Definition marker_at (s : text) : option text :=
  if startswith (str "TIQUETE") s then
    match skipn 7 s with
    | c :: r => if is_space c then Some r else None
    | [] => None
    end
  else None.

(** The rest of the line after the first occurrence of TIQUETE followed by a
    whitespace character. *)
Fixpoint after_tiquete (s : text) : option text :=
  match marker_at s with
  | Some r => Some (rest_of_line r)
  | None =>
      match s with
      | [] => None
      | _ :: s' => after_tiquete s'
      end
  end.

(** The eight characters before the position are TIQUETE and a whitespace
    character ([pre] has the nearest character first). *)
Definition behind_tiquete (pre : text) : bool :=
  match pre with
  | c :: p => is_space c && startswith (str "ETEUQIT") p
  | [] => false
  end.

(** The search of the invoice pattern, position by position. *)
Fixpoint tiquete_scan (pre rest : text) : option text :=
  if behind_tiquete pre then Some (rest_of_line rest)
  else match rest with
       | [] => None
       | c :: rest' => tiquete_scan (c :: pre) rest'
       end.

(** ** Shapes of the raw entries *)

(** An entry of [get_raw_sku_and_descriptions]: a 13-digit code with a
    non-empty description, or the SUBTOTAL marker with an empty code. *)
Definition sku_entry (x : list text) : Prop :=
  (exists code d, x = [code; d] /\ length code = 13 /\
                  forallb is_digit code = true /\ d <> []) \/
  x = [[]; str "SUBTOTAL"].

(** A [findall] tuple of the description pattern. *)
Definition sku_tuple (x : fa_item) : Prop :=
  (exists code d, x = FTuple [code; d; []] /\ length code = 13 /\
                  forallb is_digit code = true) \/
  x = FTuple [[]; []; str "SUBTOTAL"] \/
  x = FTuple [[]; []; []].

(** A field without space or newline. *)
Definition plain_field (f : text) : Prop :=
  Forall (fun c => c <> " "%char /\ c <> nl) f.

Definition price_entry (x : list text) : Prop :=
  exists a b, x = [a; b] /\ plain_field a /\ plain_field b.

(** ** More example receipts *)

Definition date_example : text :=
  text_of ["FECHA"; "1/02/2023"; "01/02/2023"; "03/04/2024"]%string.

Definition invoice_example : text :=
  text_of ["CAJA 3"; "TIQUETE 00045"; "TIQUETE 00046"]%string.

Definition no_discount_example : text :=
  text_of ["100"; "15"; "85"; "TOTAL"]%string.

(** A receipt whose first price line is not an integer. *)
Definition bad_price_example : text :=
  text_of ["1234567890123 WIDGET"; "12a"; "1000 A"; "77"; "FIN"]%string.

(** ** The limit of [int] *)

(** A string of at most 4300 characters. *)
Definition within_limit (ds : text) : bool :=
  (N.of_nat (length ds) <=? int_max_str_digits)%N.

(** The digit-only lines and the discount lines of a text. *)
Definition digit_lines (t : text) : list text :=
  filter is_integer_line (lines t).

Definition discount_lines (t : text) : list text :=
  filter is_negative_line (lines t).

(** The digits of a discount line. *)
Definition amount_digits (l : text) : text := fst (span is_digit l).

(** Every digit-only line, and every discount line, has at most 4300
    digits. *)
Definition numbers_parse (t : text) : bool :=
  forallb within_limit (digit_lines t).

Definition discounts_parse (t : text) : bool :=
  forallb (fun l => within_limit (amount_digits l)) (discount_lines t).

(** The sum of a list of integers, by recursion on the list. *)
Fixpoint zsum (l : list Z) : Z :=
  match l with
  | [] => 0%Z
  | x :: l' => (x + zsum l')%Z
  end.

(** "100\n90\n85\n10-\n5-": two discount lines. *)
Definition two_discounts_example : text :=
  text_of ["100"; "90"; "85"; "10-"; "5-"]%string.

(** A line of 4301 digits after the line 7, and a discount line of 4301
    digits after the line 7. *)
Definition long_digits : text := repeat "1"%char 4301.

Definition long_number_example : text := unlines [str "7"; long_digits].

Definition long_discount_example : text :=
  unlines [str "7"; long_digits ++ str "-"].

(** ** The first error of a sequence of calls *)

(** A result without its value: the error, if there is one. *)
Definition erase {A} (r : result A) : option exn :=
  match r with inl e => Some e | inr _ => None end.

Fixpoint first_error (rs : list (option exn)) : option exn :=
  match rs with
  | [] => None
  | Some e :: _ => Some e
  | None :: rs' => first_error rs'
  end.
(** * Lemmas *)

(** ** Lines *)

Lemma lines_not_nil (s : text) : lines s <> [].
Proof.
  induction s as [|c s IH]; simpl; [discriminate|].
  destruct (Ascii.eqb c nl); [discriminate|].
  destruct (lines s); discriminate.
Qed.

Lemma unlines_cons (l : text) (ls : list text) :
  ls <> [] -> unlines (l :: ls) = l ++ nl :: unlines ls.
Proof. destruct ls; [congruence | reflexivity]. Qed.

Lemma unlines_lines (s : text) : unlines (lines s) = s.
Proof.
  induction s as [|c s IH]; simpl; [reflexivity|].
  destruct (Ascii.eqb_spec c nl) as [->|Hc].
  - rewrite unlines_cons by apply lines_not_nil. simpl. now rewrite IH.
  - pose proof (lines_not_nil s) as Hn.
    destruct (lines s) as [|l ls]; [congruence|].
    rewrite <- IH. destruct ls; reflexivity.
Qed.

Lemma lines_no_nl (s : text) : Forall no_nl (lines s).
Proof.
  induction s as [|c s IH]; simpl.
  - repeat constructor.
  - destruct (Ascii.eqb_spec c nl) as [->|Hc].
    + constructor; [constructor | exact IH].
    + destruct (lines s) as [|l ls].
      * repeat constructor; assumption.
      * inversion IH; subst. constructor; [constructor|]; assumption.
Qed.

(** [lines] is [split] on the newline character. *)
Lemma split_aux_lines (s cur : text) :
  split_aux [nl] 0 cur s =
  match lines s with
  | l :: ls => (rev cur ++ l) :: ls
  | [] => []
  end.
Proof.
  revert cur; induction s as [|c s IH]; intros cur; simpl.
  - now rewrite app_nil_r.
  - rewrite (Ascii.eqb_sym nl c).
    destruct (Ascii.eqb c nl) eqn:E; simpl.
    + rewrite IH. rewrite app_nil_r.
      pose proof (lines_not_nil s). destruct (lines s); [congruence|].
      reflexivity.
    + rewrite IH. pose proof (lines_not_nil s).
      destruct (lines s); [congruence|].
      simpl. now rewrite <- app_assoc.
Qed.

Lemma lines_split (s : text) : lines s = split [nl] s.
Proof.
  unfold split. rewrite split_aux_lines.
  pose proof (lines_not_nil s). destruct (lines s); [congruence|reflexivity].
Qed.

Lemma span_spec (p : ascii -> bool) (l : text) :
  forall a b, span p l = (a, b) ->
    l = a ++ b /\ forallb p a = true /\
    match b with [] => True | c :: _ => p c = false end.
Proof.
  induction l as [|c l IH]; simpl; intros a b H.
  - inversion H; subst. auto.
  - destruct (p c) eqn:E.
    + destruct (span p l) as [a' b'] eqn:Es. inversion H; subst.
      destruct (IH _ _ eq_refl) as (-> & Ha & Hb). simpl. rewrite E, Ha. auto.
    + inversion H; subst. simpl. rewrite E. auto.
Qed.

Lemma span_all (p : ascii -> bool) (l : text) :
  forallb p l = true -> span p l = (l, []).
Proof.
  induction l as [|c l IH]; simpl; [reflexivity|].
  intros H. apply andb_true_iff in H as [H1 H2]. now rewrite H1, IH.
Qed.

Lemma span_app (p : ascii -> bool) (a b : text) :
  forallb p a = true ->
  match b with [] => True | c :: _ => p c = false end ->
  span p (a ++ b) = (a, b).
Proof.
  induction a as [|c a IH]; simpl; intros Ha Hb.
  - destruct b; simpl; [reflexivity|]. now rewrite Hb.
  - apply andb_true_iff in Ha as [H1 H2]. now rewrite H1, IH.
Qed.

(** ** Characters *)

Lemma digit_facts (c : ascii) :
  is_digit c = true ->
  Ascii.eqb c nl = false /\ Ascii.eqb c "-" = false /\
  Ascii.eqb c "+" = false /\ Ascii.eqb "-" c = false /\
  is_int_space c = false /\ (0 <= digit_val c)%Z.
Proof.
  destruct c as [[] [] [] [] [] [] [] []]; vm_compute;
    try discriminate; intros _; repeat split; congruence.
Qed.

Lemma text_eqb_eq (a b : text) : text_eqb a b = true <-> a = b.
Proof.
  unfold text_eqb. destruct (list_eq_dec ascii_dec a b); split; congruence.
Qed.

Lemma text_eqb_refl (a : text) : text_eqb a a = true.
Proof. now apply text_eqb_eq. Qed.

(** ** The matcher on a run of characters of one class *)

Section ClassRun.

Variable p : ascii -> bool.

(** A greedy repetition of a one-character class over a maximal run [ds]
    of that class: when the continuation refuses every position inside the
    run from the [lo]-th on, the whole run is taken. *)
Lemma rep_class_full (ds : text) :
  forall (pre rest : text) (gs : list (nat * text)) (lo fuel : nat)
         (k : cont),
    forallb p ds = true ->
    match rest with [] => True | c :: _ => p c = false end ->
    lo + length (ds ++ rest) <= fuel ->
    lo <= length ds ->
    (forall ds1 c ds2, ds = ds1 ++ c :: ds2 -> lo <= length ds1 ->
       k (MState (rev ds1 ++ pre) (c :: ds2 ++ rest) gs) = None) ->
    rep (step p) fuel lo None (MState pre (ds ++ rest) gs) k =
    k (MState (rev ds ++ pre) rest gs).
Proof.
  induction ds as [|d ds IH]; intros pre rest gs lo fuel k Hds Hrest Hf Hlo Hk.
  - simpl in Hlo. assert (lo = 0) by lia. subst lo.
    destruct fuel as [|f]; simpl; [reflexivity|].
    unfold step; simpl. destruct rest as [|c rest]; [reflexivity|].
    now rewrite Hrest.
  - simpl in Hds. apply andb_true_iff in Hds as [Hd Hds].
    destruct fuel as [|f]; [simpl in Hf; lia|].
    destruct lo as [|lo].
    + simpl. unfold step at 1. simpl. rewrite Hd.
      replace (length (ds ++ rest) <? S (length (ds ++ rest))) with true
        by (symmetry; apply Nat.ltb_lt; lia).
      rewrite IH; try assumption.
      * specialize (Hk [] d ds eq_refl (Nat.le_0_l _)). simpl in Hk.
        rewrite Hk. rewrite <- app_assoc. simpl.
        match goal with
        | |- match ?x with _ => _ end = _ => destruct x; reflexivity
        end.
      * simpl in Hf. lia.
      * lia.
      * intros ds1 c ds2 E _. specialize (Hk (d :: ds1) c ds2).
        simpl in Hk. rewrite <- app_assoc in Hk. simpl in Hk.
        apply Hk; [now rewrite E | lia].
    + simpl. unfold step at 1. simpl. rewrite Hd.
      rewrite IH; try assumption.
      * now rewrite <- app_assoc.
      * simpl in Hf. lia.
      * simpl in Hlo. lia.
      * intros ds1 c ds2 E Hl. specialize (Hk (d :: ds1) c ds2).
        simpl in Hk. rewrite <- app_assoc in Hk. simpl in Hk.
        apply Hk; [now rewrite E | simpl; lia].
Qed.

(** A run shorter than the lower bound does not match. *)
Lemma rep_class_short (ds : text) :
  forall (pre rest : text) (gs : list (nat * text)) (lo fuel : nat)
         (k : cont),
    forallb p ds = true ->
    match rest with [] => True | c :: _ => p c = false end ->
    length ds < lo ->
    rep (step p) fuel lo None (MState pre (ds ++ rest) gs) k = None.
Proof.
  induction ds as [|d ds IH]; intros pre rest gs lo fuel k Hds Hrest Hlo.
  - destruct lo as [|lo]; [simpl in Hlo; lia|].
    destruct fuel as [|f]; simpl; [reflexivity|].
    unfold step; simpl. destruct rest as [|c rest]; [reflexivity|].
    now rewrite Hrest.
  - simpl in Hds. apply andb_true_iff in Hds as [Hd Hds].
    destruct lo as [|lo]; [simpl in Hlo; lia|].
    destruct fuel as [|f]; simpl; [reflexivity|].
    unfold step at 1. simpl. rewrite Hd.
    apply IH; try assumption. simpl in Hlo. lia.
Qed.

End ClassRun.

(** A literal string matches exactly when the subject continues with it. *)
Lemma m_lit (v : text) :
  forall (s : mstate) (k : cont),
    m (lit v) s k =
    if startswith v (after s)
    then k (MState (rev v ++ before s) (skipn (length v) (after s)) (groups s))
    else None.
Proof.
  induction v as [|a v IH]; intros [pre rest gs] k; simpl.
  - reflexivity.
  - unfold step; simpl. destruct rest as [|c rest]; [reflexivity|].
    destruct (Ascii.eqb a c) eqn:E; simpl; [|reflexivity].
    apply Ascii.eqb_eq in E; subst c.
    rewrite IH. simpl. now rewrite <- app_assoc.
Qed.

(** ** The repetition loop never lacks fuel *)

(** A matcher body is well behaved when its result depends on the
    continuation only at positions that are not behind the current one, and
    it fails when the continuation always fails. *)
Section RepFuel.

Variable body : mstate -> cont -> option mstate.

Hypothesis body_ext : forall s k1 k2,
  (forall s', length (after s') <= length (after s) -> k1 s' = k2 s') ->
  body s k1 = body s k2.

Hypothesis body_fail : forall s, body s (fun _ => None) = None.

Lemma rep_ext (fuel : nat) :
  forall lo hi s k1 k2,
    (forall s', length (after s') <= length (after s) -> k1 s' = k2 s') ->
    rep body fuel lo hi s k1 = rep body fuel lo hi s k2.
Proof.
  induction fuel as [|f IH]; intros lo hi s k1 k2 Hk.
  - simpl. destruct lo; [apply Hk; lia | reflexivity].
  - cbn [rep]. destruct lo as [|lo].
    + assert (E : body s (fun s' =>
                     if length (after s') <? length (after s)
                     then rep body f 0 (opt_pred hi) s' k1 else None) =
                  body s (fun s' =>
                     if length (after s') <? length (after s)
                     then rep body f 0 (opt_pred hi) s' k2 else None)).
      { apply body_ext. intros s' Hs'.
        destruct (length (after s') <? length (after s)); [|reflexivity].
        apply IH. intros s'' Hs''. apply Hk. lia. }
      rewrite E, (Hk s (Nat.le_refl _)). reflexivity.
    + apply body_ext. intros s' Hs'. apply IH.
      intros s'' Hs''. apply Hk. lia.
Qed.

Lemma rep_fail (fuel : nat) :
  forall lo hi s, rep body fuel lo hi s (fun _ => None) = None.
Proof.
  induction fuel as [|f IH]; intros lo hi s.
  - simpl. now destruct lo.
  - cbn [rep]. destruct lo as [|lo].
    + rewrite (body_ext s _ (fun _ => None)).
      * rewrite body_fail. now destruct hi as [[|?]|].
      * intros s' _. destruct (_ <? _); [apply IH | reflexivity].
    + rewrite (body_ext s _ (fun _ => None)); [apply body_fail|].
      intros s' _. apply IH.
Qed.

(** Any amount of fuel from [lo + length (after s)] on gives the same
    result. *)
Lemma rep_fuel_enough (f1 : nat) :
  forall f2 lo hi s k,
    lo + length (after s) <= f1 -> lo + length (after s) <= f2 ->
    rep body f1 lo hi s k = rep body f2 lo hi s k.
Proof.
  induction f1 as [|f1 IH]; intros f2 lo hi s k H1 H2.
  - assert (lo = 0) by lia. assert (Ha : length (after s) = 0) by lia.
    subst lo. destruct f2 as [|f2]; [reflexivity|].
    cbn [rep]. rewrite (body_ext s _ (fun _ => None)).
    + rewrite body_fail. now destruct hi as [[|?]|].
    + intros s' _. rewrite Ha. reflexivity.
  - destruct f2 as [|f2].
    + assert (lo = 0) by lia. assert (Ha : length (after s) = 0) by lia.
      subst lo. cbn [rep]. rewrite (body_ext s _ (fun _ => None)).
      * rewrite body_fail. now destruct hi as [[|?]|].
      * intros s' _. rewrite Ha. reflexivity.
    + cbn [rep]. destruct lo as [|lo].
      * assert (E : body s (fun s' =>
                       if length (after s') <? length (after s)
                       then rep body f1 0 (opt_pred hi) s' k else None) =
                    body s (fun s' =>
                       if length (after s') <? length (after s)
                       then rep body f2 0 (opt_pred hi) s' k else None)).
        { apply body_ext. intros s' _.
          destruct (length (after s') <? length (after s)) eqn:E;
            [|reflexivity].
          apply Nat.ltb_lt in E. apply IH; simpl; lia. }
        now rewrite E.
      * apply body_ext. intros s' Hs'. apply IH; lia.
Qed.

End RepFuel.

Lemma m_ext (r : regex) :
  forall s k1 k2,
    (forall s', length (after s') <= length (after s) -> k1 s' = k2 s') ->
    m r s k1 = m r s k2.
Proof.
  induction r as [ | c | | | | | lo hi | | | | r1 IH1 r2 IH2 | r1 IH1 r2 IH2
                 | r IH lo hi | i r IH | r IH | r IH ];
    intros s k1 k2 Hk; cbn [m];
    try (unfold step; destruct (after s) as [|x rest] eqn:E; [reflexivity|];
         match goal with |- (if ?b then _ else _) = _ => destruct b end;
         [apply Hk; simpl; lia | reflexivity]);
    try (match goal with |- (if ?b then _ else _) = _ => destruct b end;
         [apply Hk; lia | reflexivity]).
  - apply Hk. lia.
  - apply IH1. intros s1 H1. apply IH2. intros s2 H2. apply Hk. lia.
  - rewrite (IH1 s k1 k2 Hk), (IH2 s k1 k2 Hk). reflexivity.
  - apply rep_ext; assumption.
  - apply IH. intros s' Hs'. apply Hk. simpl. lia.
  - destruct (m r s Some); [apply Hk; simpl; lia | reflexivity].
  - destruct (fixed_width r) as [w|]; [|reflexivity].
    destruct (w <=? length (before s)); [|reflexivity].
    destruct (m r (rewind w s) Some); [apply Hk; simpl; lia | reflexivity].
Qed.

Lemma m_fail (r : regex) : forall s, m r s (fun _ => None) = None.
Proof.
  induction r as [ | c | | | | | lo hi | | | | r1 IH1 r2 IH2 | r1 IH1 r2 IH2
                 | r IH lo hi | i r IH | r IH | r IH ];
    intros s; cbn [m];
    try (unfold step; destruct (after s) as [|x rest]; [reflexivity|];
         match goal with |- (if ?b then _ else _) = _ => now destruct b end);
    try (match goal with |- (if ?b then _ else _) = _ => now destruct b end).
  - reflexivity.
  - rewrite (m_ext r1 s _ (fun _ => None)); [apply IH1|].
    intros s' _. apply IH2.
  - now rewrite IH1, IH2.
  - apply rep_fail; [apply m_ext | assumption].
  - apply IH.
  - destruct (fixed_width r) as [w|]; [|reflexivity].
    destruct (w <=? length (before s)); [|reflexivity].
    now destruct (m r (rewind w s) Some).
Qed.

(** The fuel [m] gives the loop is enough: more fuel changes nothing. *)
Lemma rep_fuel (r : regex) (lo : nat) (hi : option nat) (s : mstate)
  (k : cont) (fuel : nat) :
  lo + length (after s) <= fuel ->
  rep (m r) fuel lo hi s k = m (Rep r lo hi) s k.
Proof.
  intros H. cbn [m].
  apply rep_fuel_enough; [apply m_ext | apply m_fail | lia | lia].
Qed.

(** ** [findall] of a pattern that matches whole lines *)

Lemma findall_from_skip (r : regex) (pre : text) (c : ascii) (rest : text)
  (n : nat) :
  findall_from r pre (c :: rest) (S n) = findall_from r (c :: pre) rest n.
Proof. reflexivity. Qed.

Lemma findall_from_none (r : regex) (pre rest : text) :
  match_at r pre rest false = None ->
  findall_from r pre rest 0 =
  match rest with
  | [] => []
  | c :: rest' => findall_from r (c :: pre) rest' 0
  end.
Proof. intros H. destruct rest; simpl; rewrite H; reflexivity. Qed.

Lemma findall_from_some (r : regex) (pre rest : text) (s1 : mstate) (n : nat) :
  match_at r pre rest false = Some s1 ->
  length rest - length (after s1) = S n ->
  findall_from r pre rest 0 =
  item_of r (mk_match rest s1) ::
  match rest with
  | [] => []
  | c :: rest' => findall_from r (c :: pre) rest' n
  end.
Proof.
  intros H Hn. destruct rest; simpl; rewrite H; simpl in Hn |- *.
  - discriminate.
  - rewrite Hn. reflexivity.
Qed.

Section LinePattern.

Variables (r : regex) (P : text -> bool).
Hypothesis LP : line_pattern r P.

(** From a position inside a line nothing is found up to the end of that
    line. *)
Lemma findall_inside (line : text) :
  forall (pre tail : text) (skip : nat),
    no_nl line -> bol pre = false -> skip <= length line ->
    line_end tail ->
    findall_from r pre (line ++ tail) skip =
    match tail with
    | [] => []
    | c :: t => findall_from r (c :: rev line ++ pre) t 0
    end.
Proof.
  induction line as [|c line IH]; intros pre tail skip Hl Hb Hs Ht.
  - simpl in Hs. assert (skip = 0) by lia. subst skip. simpl app.
    rewrite findall_from_none by (apply (lp_inside _ _ LP); assumption).
    reflexivity.
  - inversion Hl as [|? ? Hc Hl']; subst.
    assert (Hb' : bol (c :: pre) = false)
      by (simpl; now apply Ascii.eqb_neq).
    simpl app. simpl rev. rewrite <- app_assoc. simpl app.
    destruct skip as [|n].
    + rewrite findall_from_none by (apply (lp_inside _ _ LP); assumption).
      apply IH; try assumption. lia.
    + rewrite findall_from_skip. apply IH; try assumption. simpl in Hs. lia.
Qed.

(** One line, from its start. *)
Lemma findall_line (line pre tail : text) :
  no_nl line -> bol pre = true -> line_end tail ->
  findall_from r pre (line ++ tail) 0 =
  (if P line then [FStr line] else []) ++
  match tail with
  | [] => []
  | c :: t => findall_from r (c :: rev line ++ pre) t 0
  end.
Proof.
  intros Hl Hb Ht.
  pose proof (lp_line _ _ LP pre line tail Hb Hl Ht) as Hm.
  destruct (P line) eqn:HP.
  - destruct line as [|c line].
    { rewrite (lp_nonempty _ _ LP) in HP. discriminate. }
    inversion Hl as [|? ? Hc Hl']; subst.
    rewrite (findall_from_some _ _ _ _ (length line) Hm).
    2:{ cbn [after]. rewrite length_app. cbn [length]. lia. }
    unfold item_of. rewrite (lp_groups _ _ LP).
    unfold mk_match. cbn [group0 after].
    replace (length ((c :: line) ++ tail) - length tail)
      with (length (c :: line)) by (rewrite length_app; lia).
    rewrite firstn_app, firstn_all, Nat.sub_diag. simpl firstn.
    rewrite app_nil_r. simpl app. f_equal.
    simpl rev. rewrite <- app_assoc. simpl app.
    apply findall_inside; try assumption; [|lia].
    simpl. now apply Ascii.eqb_neq.
  - rewrite (findall_from_none _ _ _ Hm). simpl app.
    destruct line as [|c line]; [reflexivity|].
    inversion Hl as [|? ? Hc Hl']; subst.
    simpl app. simpl rev. rewrite <- app_assoc. simpl app.
    apply findall_inside; try assumption; [|lia].
    simpl. now apply Ascii.eqb_neq.
Qed.

Lemma findall_lines (ls : list text) :
  forall pre : text,
    ls <> [] -> Forall no_nl ls -> bol pre = true ->
    findall_from r pre (unlines ls) 0 = map FStr (filter P ls).
Proof.
  induction ls as [|l ls IH]; intros pre Hne Hl Hb; [congruence|].
  inversion Hl as [|? ? Hl1 Hl2]; subst.
  destruct ls as [|l2 ls].
  - simpl unlines. rewrite <- (app_nil_r l) at 1.
    rewrite findall_line by (try assumption; exact I).
    simpl. destruct (P l); reflexivity.
  - rewrite unlines_cons by discriminate.
    rewrite findall_line by (try assumption; reflexivity).
    rewrite IH by (try assumption; try discriminate; reflexivity).
    simpl filter. destruct (P l); reflexivity.
Qed.

(** [findall] returns the lines that satisfy [P], in order. *)
Lemma findall_line_pattern (t : text) :
  re_findall r t = map FStr (filter P (lines t)).
Proof.
  unfold re_findall. rewrite <- (unlines_lines t) at 1.
  apply findall_lines; [apply lines_not_nil | apply lines_no_nl | reflexivity].
Qed.

End LinePattern.

(** ** The two line patterns of [get_subtotal] and [get_total] *)

(** [\d+] over a maximal run of digits, followed by something that does not
    accept a digit. *)
Lemma plus_digit_run (ds pre rest : text) (gs : list (nat * text)) (k : cont) :
  forallb is_digit ds = true ->
  no_leading_digit rest ->
  (forall s, starts_with_digit (after s) -> k s = None) ->
  m (Plus Digit) (MState pre (ds ++ rest) gs) k =
  if null ds then None else k (MState (rev ds ++ pre) rest gs).
Proof.
  intros Hds Hrest Hk. unfold Plus. cbn [m after].
  change (m Digit) with (step is_digit).
  destruct ds as [|d ds].
  - apply (rep_class_short is_digit []); [reflexivity | exact Hrest | simpl; lia].
  - cbn [null].
    apply (rep_class_full is_digit (d :: ds)); try assumption; simpl; try lia.
    intros ds1 c ds2 E _. apply Hk. simpl.
    assert (Hin : In c (d :: ds)) by (rewrite E; apply in_elt).
    rewrite forallb_forall in Hds. now apply Hds.
Qed.

Lemma line_tail_no_digit (r1 tail : text) :
  no_leading_digit r1 -> line_end tail -> no_leading_digit (r1 ++ tail).
Proof.
  intros H1 H2. destruct r1 as [|c r1]; simpl; [|exact H1].
  destruct tail as [|c tail]; simpl; [exact I|].
  simpl in H2. subst c. reflexivity.
Qed.

Lemma integer_line_pattern :
  line_pattern Pattern.integer_line is_integer_line.
Proof.
  split.
  - reflexivity.
  - reflexivity.
  - intros pre rest Hb. unfold match_at, Pattern.integer_line.
    cbn [cat m]. unfold at_bol. cbn [before].
    change (match pre with [] => true | c :: _ => Ascii.eqb c nl end)
      with (bol pre).
    now rewrite Hb.
  - intros pre line tail Hb Hl Ht. unfold match_at, Pattern.integer_line.
    cbn [cat m]. unfold at_bol at 1. cbn [before].
    change (match pre with [] => true | c :: _ => Ascii.eqb c nl end)
      with (bol pre).
    rewrite Hb.
    destruct (span is_digit line) as [ds r1] eqn:Es.
    apply span_spec in Es as (-> & Hds & Hr1).
    rewrite <- app_assoc.
    rewrite plus_digit_run; try assumption.
    + unfold is_integer_line. rewrite forallb_app, Hds.
      destruct ds as [|d ds]; cbn [null].
      * simpl. destruct r1 as [|c r1]; [reflexivity|].
        simpl. now rewrite Hr1.
      * unfold at_eol. cbn [after andb negb app null].
        destruct r1 as [|c r1].
        -- rewrite !app_nil_r. simpl.
           destruct tail as [|c tail]; [reflexivity|].
           simpl in Ht. subst c. reflexivity.
        -- simpl. rewrite Hr1. simpl.
           apply Forall_app in Hl as [_ Hl].
           inversion Hl as [|? ? Hc _]; subst.
           apply Ascii.eqb_neq in Hc. now rewrite Hc.
    + apply line_tail_no_digit; [|assumption].
      destruct r1; [exact I | exact Hr1].
    + intros s Hs. unfold at_eol. destruct (after s) as [|c l]; [contradiction|].
      simpl in Hs. apply digit_facts in Hs as (-> & _). reflexivity.
Qed.

Lemma negative_line_pattern :
  line_pattern Pattern.negative_line is_negative_line.
Proof.
  split.
  - reflexivity.
  - reflexivity.
  - intros pre rest Hb. unfold match_at, Pattern.negative_line.
    cbn [cat m]. unfold at_bol. cbn [before].
    change (match pre with [] => true | c :: _ => Ascii.eqb c nl end)
      with (bol pre).
    now rewrite Hb.
  - intros pre line tail Hb Hl Ht. unfold match_at, Pattern.negative_line.
    cbn [cat m]. unfold at_bol at 1. cbn [before].
    change (match pre with [] => true | c :: _ => Ascii.eqb c nl end)
      with (bol pre).
    rewrite Hb.
    unfold is_negative_line.
    destruct (span is_digit line) as [ds r1] eqn:Es.
    apply span_spec in Es as (-> & Hds & Hr1).
    rewrite <- app_assoc.
    rewrite plus_digit_run; try assumption.
    + destruct ds as [|d ds]; cbn [null negb andb]; [reflexivity|].
      unfold step at 1. cbn [after before groups].
      destruct r1 as [|c r1].
      * simpl. destruct tail as [|c tail]; [reflexivity|].
        simpl in Ht. subst c. reflexivity.
      * apply Forall_app in Hl as [_ Hl].
        inversion Hl as [|? ? Hc Hl']; subst.
        cbn [app]. destruct (Ascii.eqb_spec "-" c) as [<-|Hne].
        -- unfold at_eol. cbn [after].
           destruct r1 as [|c2 r1].
           ++ rewrite text_eqb_refl. simpl.
              rewrite rev_app_distr. simpl.
              destruct tail as [|c tail]; [reflexivity|].
              simpl in Ht. subst c. reflexivity.
           ++ inversion Hl' as [|? ? Hc2 _]; subst.
              apply Ascii.eqb_neq in Hc2. simpl. rewrite Hc2.
              reflexivity.
        -- destruct (text_eqb _ _) eqn:E; [|reflexivity].
           apply text_eqb_eq in E. inversion E. congruence.
    + apply line_tail_no_digit; [|assumption].
      destruct r1; [exact I | exact Hr1].
    + intros s Hs. unfold step. destruct (after s) as [|c l]; [contradiction|].
      simpl in Hs. apply digit_facts in Hs as (_ & _ & _ & -> & _). reflexivity.
Qed.

(** ** [int] on a string of digits *)

Lemma int_digits_all (ds : text) :
  forall acc : Z,
    forallb is_digit ds = true ->
    int_digits acc false ds =
    Some (fold_left (fun a c => (10 * a + digit_val c)%Z) ds acc).
Proof.
  induction ds as [|d ds IH]; intros acc H; simpl; [reflexivity|].
  simpl in H. apply andb_true_iff in H as [Hd Hds].
  rewrite Hd. now apply IH.
Qed.

Lemma int_lstrip_digits (ds : text) :
  forallb is_digit ds = true -> int_lstrip ds = ds.
Proof.
  destruct ds as [|d ds]; simpl; [reflexivity|].
  intros H. apply andb_true_iff in H as [Hd _].
  apply digit_facts in Hd as (_ & _ & _ & _ & -> & _). reflexivity.
Qed.

Lemma forallb_rev (p : ascii -> bool) (l : text) :
  forallb p l = true -> forallb p (rev l) = true.
Proof.
  rewrite !forallb_forall. intros H x Hx. apply H. now apply in_rev.
Qed.

Lemma filter_all (p : ascii -> bool) (l : text) :
  forallb p l = true -> filter p l = l.
Proof.
  induction l as [|c l IH]; simpl; [reflexivity|].
  intros H. apply andb_true_iff in H as [Hc Hl]. now rewrite Hc, IH.
Qed.

(** [int] on a non-empty string of digits: its value, unless it has more
    than 4300 digits. *)
Lemma py_int_digits (ds : text) :
  is_integer_line ds = true ->
  py_int ds = if within_limit ds then inr (dval ds) else inl ValueError.
Proof.
  unfold is_integer_line. intros H. apply andb_true_iff in H as [Hn Hds].
  unfold py_int, int_strip, digit_count, within_limit.
  rewrite (filter_all _ _ Hds).
  rewrite (int_lstrip_digits ds Hds).
  rewrite (int_lstrip_digits (rev ds) (forallb_rev _ _ Hds)).
  rewrite rev_involutive.
  destruct ds as [|d ds]; [discriminate|].
  pose proof Hds as Hds'. cbn [forallb] in Hds'.
  apply andb_true_iff in Hds' as [Hd _].
  unfold int_signed, int_unsigned.
  destruct (digit_facts d Hd) as (_ & -> & -> & _).
  rewrite Hd, int_digits_all by assumption.
  fold (dval (d :: ds)).
  rewrite N.ltb_antisym. now destruct (_ <=? _)%N.
Qed.

(** Below the limit, as for a 13-digit code. *)
Lemma py_int_digits_short (ds : text) :
  is_integer_line ds = true -> within_limit ds = true ->
  py_int ds = inr (dval ds).
Proof. intros H Hw. now rewrite py_int_digits, Hw. Qed.

Lemma fold_digits_nonneg (ds : text) :
  forall acc : Z,
    (0 <= acc)%Z -> forallb is_digit ds = true ->
    (0 <= fold_left (fun a c => (10 * a + digit_val c)%Z) ds acc)%Z.
Proof.
  induction ds as [|d ds IH]; intros acc Hacc H; cbn [fold_left]; [assumption|].
  simpl in H. apply andb_true_iff in H as [Hd Hds].
  apply IH; [|assumption].
  destruct (digit_facts d Hd) as (_ & _ & _ & _ & _ & Hv). lia.
Qed.

Lemma dval_nonneg (ds : text) :
  forallb is_digit ds = true -> (0 <= dval ds)%Z.
Proof. intros H. apply fold_digits_nonneg; [lia | assumption]. Qed.

(** Removing the minus sign of a discount line leaves its digits. *)
Lemma replace_minus_digits (ds : text) :
  forallb is_digit ds = true ->
  replace (str "-") [] (ds ++ str "-") = ds.
Proof.
  unfold replace. induction ds as [|d ds IH]; intros H.
  - reflexivity.
  - simpl in H. apply andb_true_iff in H as [Hd Hds].
    cbn [app replace_aux startswith str list_ascii_of_string].
    destruct (digit_facts d Hd) as (_ & _ & _ & -> & _).
    cbn [andb]. f_equal. now apply IH.
Qed.

Lemma negative_line_shape (l : text) :
  is_negative_line l = true ->
  l = fst (span is_digit l) ++ str "-" /\
  is_integer_line (fst (span is_digit l)) = true.
Proof.
  unfold is_negative_line, is_integer_line.
  destruct (span is_digit l) as [ds r1] eqn:Es.
  apply span_spec in Es as (-> & Hds & _).
  intros H. apply andb_true_iff in H as [Hn Hr].
  apply text_eqb_eq in Hr. subst r1. cbn [fst]. now rewrite Hn, Hds.
Qed.

(** ** What [get_subtotal] and [get_total] compute *)

Lemma mapR_integer_lines (ls : list text) :
  mapR item_int (map FStr (filter is_integer_line ls)) =
  if forallb within_limit (filter is_integer_line ls)
  then inr (map dval (filter is_integer_line ls))
  else inl ValueError.
Proof.
  induction ls as [|l ls IH]; cbn [filter map mapR forallb]; [reflexivity|].
  destruct (is_integer_line l) eqn:E; [|exact IH].
  cbn [map mapR item_int forallb]. rewrite (py_int_digits l E).
  destruct (within_limit l); [|reflexivity].
  cbn [rbind andb]. rewrite IH.
  now destruct (forallb within_limit (filter is_integer_line ls)).
Qed.

Lemma mapR_negative_lines (ls : list text) :
  mapR (fun x =>
      rbind (item_replace (str "-") [] x) (fun y =>
      rbind (py_int y) (fun n => inr (n * -1)%Z)))
    (map FStr (filter is_negative_line ls)) =
  if forallb (fun l => within_limit (amount_digits l))
       (filter is_negative_line ls)
  then inr (map (fun l => (dval (fst (span is_digit l)) * -1)%Z)
                (filter is_negative_line ls))
  else inl ValueError.
Proof.
  induction ls as [|l ls IH]; cbn [filter map mapR forallb]; [reflexivity|].
  destruct (is_negative_line l) eqn:E; [|exact IH].
  destruct (negative_line_shape l E) as [Hl Hd].
  cbn [map mapR item_replace rbind forallb]. rewrite Hl at 1.
  rewrite replace_minus_digits
    by (unfold is_integer_line in Hd; now apply andb_true_iff in Hd as [_ ?]).
  rewrite (py_int_digits _ Hd). unfold amount_digits at 1.
  destruct (within_limit (fst (span is_digit l))); [|reflexivity].
  cbn [rbind andb]. rewrite IH.
  now destruct (forallb _ (filter is_negative_line ls)).
Qed.

Arguments re_findall : simpl never.
Arguments re_search : simpl never.

Lemma bind_eq {A B} (x : M A) (f : A -> M B) (self : Receipt) :
  bind x f self =
  match x self with
  | (inl e, self') => (inl e, self')
  | (inr a, self') => f a self'
  end.
Proof. reflexivity. Qed.

Lemma get_all_matches_eq (pattern : regex) (self : Receipt) :
  get_all_matches pattern self = (inr (re_findall pattern (file self)), self).
Proof. reflexivity. Qed.

Lemma lift_eq {A} (x : result A) (self : Receipt) : lift x self = (x, self).
Proof. reflexivity. Qed.

Lemma ret_eq {A} (a : A) (self : Receipt) : ret a self = (inr a, self).
Proof. reflexivity. Qed.

(** What [get_subtotal] returns and the state it leaves behind: when a
    digit-only line has too many digits for [int], it raises before it
    assigns [numbers]. *)
Lemma get_subtotal_eq (self : Receipt) :
  get_subtotal self =
  if numbers_parse (file self)
  then (py_max (numbers_of (file self)),
        MkReceipt (file self) (Some (numbers_of (file self))))
  else (inl ValueError, self).
Proof.
  unfold get_subtotal.
  rewrite bind_eq, get_all_matches_eq.
  rewrite (findall_line_pattern _ _ integer_line_pattern).
  rewrite bind_eq, lift_eq, mapR_integer_lines.
  unfold numbers_parse, digit_lines.
  now destruct (forallb within_limit _).
Qed.

Lemma get_total_eq (self : Receipt) :
  get_total self =
  if discounts_parse (file self) && numbers_parse (file self)
  then
    (match py_max (numbers_of (file self)) with
     | inl e => inl e
     | inr s =>
         inr (if py_in (s + discounts_of (file self)) (numbers_of (file self))
              then s + discounts_of (file self) else s)%Z
     end,
     MkReceipt (file self) (Some (numbers_of (file self))))
  else (inl ValueError, self).
Proof.
  unfold get_total.
  rewrite bind_eq, get_all_matches_eq.
  rewrite (findall_line_pattern _ _ negative_line_pattern).
  rewrite bind_eq, lift_eq, mapR_negative_lines.
  unfold discounts_parse, discount_lines.
  destruct (forallb _ (filter is_negative_line (lines (file self))));
    [|reflexivity].
  fold (discounts_of (file self)). cbn [andb].
  rewrite bind_eq, get_subtotal_eq.
  destruct (numbers_parse (file self)) eqn:Ep; [|reflexivity].
  destruct (py_max (numbers_of (file self))) as [e|s] eqn:Emax; [reflexivity|].
  rewrite bind_eq. unfold self_numbers at 1. cbn [numbers].
  assert (Ep' : numbers_parse
                  (file (MkReceipt (file self)
                           (Some (numbers_of (file self))))) = true)
    by exact Ep.
  destruct (py_in _ _).
  - rewrite bind_eq, get_subtotal_eq, Ep'. cbn [file]. now rewrite Emax.
  - rewrite get_subtotal_eq, Ep'. cbn [file]. now rewrite Emax.
Qed.

(** ** The address pattern *)

Lemma search_from_none (r : regex) (pre rest : text) :
  match_at r pre rest false = None ->
  search_from r pre rest =
  match rest with
  | [] => None
  | c :: rest' => search_from r (c :: pre) rest'
  end.
Proof. intros H. destruct rest; simpl; rewrite H; reflexivity. Qed.

Lemma search_from_some (r : regex) (pre rest : text) (s1 : mstate) :
  match_at r pre rest false = Some s1 ->
  search_from r pre rest = Some (mk_match rest s1).
Proof. intros H. destruct rest; simpl; rewrite H; reflexivity. Qed.

Lemma no_nl_forallb (l : text) :
  no_nl l -> forallb (fun x => negb (Ascii.eqb x nl)) l = true.
Proof.
  intros H. apply forallb_forall. intros x Hx.
  unfold no_nl in H. rewrite Forall_forall in H.
  apply negb_true_iff, Ascii.eqb_neq. now apply H.
Qed.

(** From any position of a line, the address pattern matches the rest of the
    line, and only when the next line begins with VENDEDOR. *)
Lemma address_match_at (l pre tail : text) :
  no_nl l -> line_end tail ->
  match_at Pattern.address pre (l ++ tail) false =
  if startswith (nl :: str "VENDEDOR") tail
  then Some (MState (rev l ++ pre) tail [])
  else None.
Proof.
  intros Hl Ht. unfold match_at, Pattern.address, Star. cbn [cat m after].
  change (m Dot) with (step (fun x => negb (Ascii.eqb x nl))).
  rewrite (rep_class_full _ l); try lia.
  - rewrite m_lit. cbn [after]. now destruct (startswith _ tail).
  - now apply no_nl_forallb.
  - destruct tail as [|c tail]; [exact I|]. simpl in Ht. subst c.
    reflexivity.
  - intros ds1 c ds2 E _. rewrite m_lit. cbn [after startswith].
    assert (Hin : In c l) by (rewrite E; apply in_elt).
    unfold no_nl in Hl. rewrite Forall_forall in Hl.
    specialize (Hl c Hin). apply Ascii.eqb_neq in Hl.
    rewrite Ascii.eqb_sym, Hl. reflexivity.
Qed.

Lemma address_search_line (l : text) :
  forall pre tail : text,
    no_nl l -> line_end tail ->
    startswith (nl :: str "VENDEDOR") tail = false ->
    search_from Pattern.address pre (l ++ tail) =
    match tail with
    | [] => None
    | c :: t => search_from Pattern.address (c :: rev l ++ pre) t
    end.
Proof.
  induction l as [|c l IH]; intros pre tail Hl Ht Hv.
  - rewrite search_from_none; [reflexivity|].
    rewrite (address_match_at [] pre tail Hl Ht). now rewrite Hv.
  - rewrite search_from_none.
    2:{ rewrite (address_match_at _ pre tail Hl Ht). now rewrite Hv. }
    inversion Hl; subst. cbn [app]. rewrite IH by assumption.
    simpl rev. rewrite <- app_assoc. reflexivity.
Qed.

Lemma address_search_found (l pre tail : text) :
  no_nl l -> line_end tail ->
  startswith (nl :: str "VENDEDOR") tail = true ->
  search_from Pattern.address pre (l ++ tail) = Some (RMatch l []).
Proof.
  intros Hl Ht Hv.
  erewrite search_from_some
    by (rewrite (address_match_at _ pre tail Hl Ht); now rewrite Hv).
  unfold mk_match. cbn [after groups]. f_equal.
  replace (length (l ++ tail) - length tail) with (length l)
    by (rewrite length_app; lia).
  rewrite firstn_app, firstn_all, Nat.sub_diag. simpl. now rewrite app_nil_r.
Qed.

Lemma startswith_before_nl (v l x : text) :
  no_nl v -> startswith v (l ++ nl :: x) = startswith v l.
Proof.
  revert l. induction v as [|a v IH]; intros l Hv; [reflexivity|].
  inversion Hv as [|? ? Ha Hv']; subst.
  destruct l as [|b l]; simpl.
  - apply Ascii.eqb_neq in Ha. now rewrite Ha.
  - now rewrite IH.
Qed.

Lemma startswith_unlines (v l : text) (ls : list text) :
  no_nl v -> startswith v (unlines (l :: ls)) = startswith v l.
Proof.
  intros Hv. destruct ls as [|l2 ls]; [reflexivity|].
  rewrite unlines_cons by discriminate. now apply startswith_before_nl.
Qed.

Lemma vendedor_no_nl : no_nl (str "VENDEDOR").
Proof. repeat constructor; discriminate. Qed.

Lemma address_search_lines (ls : list text) :
  forall pre : text,
    ls <> [] -> Forall no_nl ls ->
    search_from Pattern.address pre (unlines ls) =
    option_map (fun l => RMatch l []) (line_before_vendedor ls).
Proof.
  induction ls as [|l ls IH]; intros pre Hne Hl; [congruence|].
  inversion Hl as [|? ? Hl1 Hl2]; subst.
  destruct ls as [|l2 ls].
  - simpl unlines. rewrite <- (app_nil_r l) at 1.
    rewrite address_search_line by (try assumption; reflexivity).
    reflexivity.
  - rewrite unlines_cons by discriminate.
    cbn [line_before_vendedor].
    destruct (startswith (str "VENDEDOR") l2) eqn:E.
    + apply address_search_found; [assumption | reflexivity |].
      cbn [startswith]. rewrite Ascii.eqb_refl.
      rewrite (startswith_unlines _ _ _ vendedor_no_nl). now rewrite E.
    + rewrite address_search_line; [| assumption | reflexivity |].
      * apply IH; [discriminate | assumption].
      * cbn [startswith]. rewrite Ascii.eqb_refl.
        rewrite (startswith_unlines _ _ _ vendedor_no_nl). now rewrite E.
Qed.

Lemma address_search (t : text) :
  re_search Pattern.address t =
  option_map (fun l => RMatch l []) (line_before_vendedor (lines t)).
Proof.
  unfold re_search. rewrite <- (unlines_lines t) at 1.
  apply address_search_lines; [apply lines_not_nil | apply lines_no_nl].
Qed.

(** The first piece of [split] is the part before the first separator. *)
Lemma split_aux_head (sep s : text) :
  forall cur : text,
    exists rest : list text,
      split_aux sep 0 cur s = (rev cur ++ truncate_at sep s) :: rest.
Proof.
  induction s as [|c s IH]; intros cur.
  - exists []. simpl. now rewrite app_nil_r.
  - cbn [split_aux truncate_at]. destruct (startswith sep (c :: s)).
    + eexists. now rewrite app_nil_r.
    + destruct (IH (c :: cur)) as [rest ->]. exists rest.
      simpl. now rewrite <- app_assoc.
Qed.

Lemma split_head (sep s : text) :
  index (split sep s) 0 = inr (truncate_at sep s).
Proof.
  unfold split. destruct (split_aux_head sep s []) as [rest ->]. reflexivity.
Qed.

Lemma search_pattern_eq (pattern : regex) (self : Receipt) :
  search_pattern pattern self =
  (match re_search pattern (file self) with
   | Some mt => inr (group0 mt)
   | None => inl AttributeError
   end, self).
Proof.
  unfold search_pattern. rewrite bind_eq. unfold self_file.
  now destruct (re_search pattern (file self)).
Qed.

Lemma get_address_eq (self : Receipt) :
  get_address self =
  (match line_before_vendedor (lines (file self)) with
   | Some l => inr (strip (truncate_at (str "TEL:") l))
   | None => inl AttributeError
   end, self).
Proof.
  unfold get_address. rewrite bind_eq, search_pattern_eq, address_search.
  destruct (line_before_vendedor (lines (file self))) as [l|]; [|reflexivity].
  cbn [option_map group0]. rewrite bind_eq, lift_eq, split_head. reflexivity.
Qed.

(** ** The raw extractors never raise *)

(** Every element of [findall]'s result is built by [item_of]. *)
Lemma findall_from_items (r : regex) (rest : text) :
  forall (pre : text) (skip : nat) (x : fa_item),
    In x (findall_from r pre rest skip) -> exists mt, x = item_of r mt.
Proof.
  induction rest as [|c rest IH]; intros pre skip x H; cbn [findall_from] in H;
    repeat match type of H with
      | In _ (match ?e with _ => _ end) => destruct e
      | In _ (_ :: _) => destruct H as [<-|H]
      | In _ [] => contradiction
      end; eauto.
Qed.

Lemma sku_items (t : text) (x : fa_item) :
  In x (re_findall Pattern.sku_and_description t) ->
  exists a b c, x = FTuple [a; b; c].
Proof.
  intros H. apply findall_from_items in H as [mt ->].
  unfold item_of. simpl. eauto.
Qed.

Lemma prices_items (t : text) (x : fa_item) :
  In x (re_findall Pattern.prices t) -> exists s, x = FStr s.
Proof.
  intros H. apply findall_from_items in H as [mt ->].
  unfold item_of. simpl. eauto.
Qed.

Lemma sku_loop_ok (items : list fa_item) :
  forall out : list (list text),
    (forall x, In x items -> exists a b c, x = FTuple [a; b; c]) ->
    Forall is_pair out ->
    exists out', sku_loop items out = inr out' /\ Forall is_pair out'.
Proof.
  induction items as [|x items IH]; intros out Hx Hout.
  - exists out. split; [reflexivity | assumption].
  - destruct (Hx x (or_introl eq_refl)) as (a & b & c & ->).
    assert (Hx' : forall y, In y items -> exists a b c, y = FTuple [a; b; c])
      by (intros y Hy; apply Hx; now right).
    cbn [sku_loop item_index index nth_error rbind].
    destruct (negb (text_eqb a [])); cbn [rbind].
    + destruct (negb (text_eqb b [])).
      * apply IH; [assumption|].
        apply Forall_app; split; [assumption|]. repeat constructor.
      * destruct (negb (text_eqb c [])); apply IH; try assumption.
        apply Forall_app; split; [assumption|]. repeat constructor.
    + destruct (negb (text_eqb c [])); apply IH; try assumption.
      apply Forall_app; split; [assumption|]. repeat constructor.
Qed.

Lemma split_aux_not_nil (sep s : text) :
  forall (skip : nat) (cur : text), split_aux sep skip cur s <> [].
Proof.
  induction s as [|c s IH]; intros skip cur; simpl; [discriminate|].
  destruct skip; [|apply IH].
  destruct (startswith sep (c :: s)); [discriminate | apply IH].
Qed.

(** A string that contains the separator splits into at least two pieces. *)
Lemma split_contains (sep s : text) :
  forall cur : text,
    sep <> [] -> contains sep s = true ->
    exists a b rest, split_aux sep 0 cur s = a :: b :: rest.
Proof.
  induction s as [|c s IH]; intros cur Hsep H.
  - simpl in H. destruct sep; [congruence | discriminate].
  - cbn [contains] in H. cbn [split_aux].
    destruct (startswith sep (c :: s)).
    + pose proof (split_aux_not_nil sep s (length sep - 1) []) as Hn.
      destruct (split_aux sep (length sep - 1) [] s) as [|b rest];
        [congruence|].
      eauto.
    + apply IH; assumption.
Qed.

Lemma price_lines_loop_ok (lines : list text) :
  forall prices_list : list (list text),
    Forall is_pair prices_list ->
    exists out,
      price_lines_loop lines prices_list = inr out /\ Forall is_pair out.
Proof.
  induction lines as [|elem2 lines IH]; intros prices_list Hp.
  - exists prices_list. split; [reflexivity | assumption].
  - cbn [price_lines_loop].
    destruct (negb (text_eqb elem2 []) && negb (text_eqb elem2 (str " ")));
      [|now apply IH].
    destruct (contains (str " ") elem2) eqn:E.
    + unfold split.
      destruct (split_contains (str " ") elem2 [] ltac:(discriminate) E)
        as (a & b & rest & ->).
      cbn [index nth_error rbind]. apply IH.
      apply Forall_app; split; [assumption|]. repeat constructor.
    + apply IH. apply Forall_app; split; [assumption|]. repeat constructor.
Qed.

Lemma prices_loop_ok (items : list fa_item) :
  forall prices_list : list (list text),
    (forall x, In x items -> exists s, x = FStr s) ->
    Forall is_pair prices_list ->
    exists out, prices_loop items prices_list = inr out /\ Forall is_pair out.
Proof.
  induction items as [|x items IH]; intros prices_list Hx Hp.
  - exists prices_list. split; [reflexivity | assumption].
  - destruct (Hx x (or_introl eq_refl)) as (s & ->).
    cbn [prices_loop item_split rbind].
    destruct (price_lines_loop_ok (split [nl] s) prices_list Hp)
      as (out1 & -> & Hout1).
    cbn [rbind]. apply IH; [|assumption].
    intros y Hy. apply Hx. now right.
Qed.

Lemma get_raw_sku_and_descriptions_ok (self : Receipt) :
  exists ds,
    get_raw_sku_and_descriptions self = (inr ds, self) /\ Forall is_pair ds.
Proof.
  unfold get_raw_sku_and_descriptions.
  rewrite bind_eq, get_all_matches_eq, lift_eq.
  destruct (sku_loop_ok (re_findall Pattern.sku_and_description (file self)) [])
    as (ds & -> & Hds); [apply sku_items | constructor |].
  eauto.
Qed.

Lemma get_raw_prices_ok (self : Receipt) :
  exists ps, get_raw_prices self = (inr ps, self) /\ Forall is_pair ps.
Proof.
  unfold get_raw_prices.
  rewrite bind_eq, get_all_matches_eq, lift_eq.
  destruct (prices_loop_ok (re_findall Pattern.prices (file self)) [])
    as (ps & -> & Hps); [apply prices_items | constructor |].
  eauto.
Qed.

(** ** The merging loop and the filter of [get_items_group] *)

Lemma append_at_middle (done todo : list (list text)) (d : list text)
  (v : text) :
  append_at (done ++ d :: todo) (length done) v =
  inr (done ++ (d ++ [v]) :: todo).
Proof.
  unfold append_at.
  rewrite nth_error_app2, Nat.sub_diag by lia. cbn [nth_error].
  rewrite firstn_app, firstn_all, Nat.sub_diag. cbn [firstn].
  rewrite app_nil_r.
  replace (S (length done)) with (length (done ++ [d]))
    by (rewrite length_app; simpl; lia).
  replace (done ++ d :: todo) with ((done ++ [d]) ++ todo)
    by (now rewrite <- app_assoc).
  rewrite skipn_app, skipn_all, Nat.sub_diag. reflexivity.
Qed.

Lemma merge_loop_merged (todo : list (list text)) :
  forall done pdone ps : list (list text),
    length done = length pdone ->
    Forall is_pair ps ->
    merge_loop (seq (length done) (Nat.min (length todo) (length ps)))
      (done ++ todo) (pdone ++ ps) =
    inr (done ++ merged todo ps).
Proof.
  induction todo as [|d todo IH]; intros done pdone ps Hlen Hps.
  - reflexivity.
  - destruct ps as [|p ps]; [reflexivity|].
    inversion Hps as [|? ? Hp Hps']; subst.
    destruct p as [|p0 [|p1 [|? ?]]]; try discriminate Hp.
    cbn [length Nat.min seq merge_loop merged].
    unfold index at 1 3.
    rewrite Hlen, nth_error_app2, Nat.sub_diag by lia.
    cbn [nth_error rbind index]. rewrite <- Hlen.
    rewrite append_at_middle. cbn [rbind].
    rewrite append_at_middle. cbn [rbind].
    replace (done ++ ((d ++ [p0]) ++ [p1]) :: todo)
      with ((done ++ [d ++ [p0; p1]]) ++ todo)
      by (rewrite <- !app_assoc; reflexivity).
    replace (pdone ++ [p0; p1] :: ps) with ((pdone ++ [[p0; p1]]) ++ ps)
      by (now rewrite <- app_assoc).
    replace (S (length done)) with (length (done ++ [d ++ [p0; p1]]))
      by (rewrite length_app; simpl; lia).
    rewrite IH; [| rewrite !length_app; simpl; lia | assumption].
    now rewrite <- app_assoc.
Qed.

Lemma complete_loop_pairs (l : list (list text)) :
  forall acc : list LineItem,
    Forall is_pair l -> complete_loop l acc = inr acc.
Proof.
  induction l as [|x l IH]; intros acc H; [reflexivity|].
  inversion H as [|? ? Hx Hl]; subst.
  cbn [complete_loop]. unfold is_pair in Hx. rewrite Hx.
  cbn [Nat.eqb rbind]. now apply IH.
Qed.

Lemma complete_loop_merged (ds : list (list text)) :
  forall (ps : list (list text)) (acc : list LineItem),
    Forall is_pair ds -> Forall is_pair ps ->
    complete_loop (merged ds ps) acc =
    rbind (mapR coerce (filter kept (zip_records ds ps)))
          (fun items => inr (acc ++ items)).
Proof.
  induction ds as [|d ds IH]; intros ps acc Hds Hps.
  - simpl. now rewrite app_nil_r.
  - destruct ps as [|p ps].
    + cbn [merged zip_records filter mapR rbind].
      rewrite complete_loop_pairs by assumption. now rewrite app_nil_r.
    + inversion Hds as [|? ? Hd Hds']; subst.
      inversion Hps as [|? ? Hp Hps']; subst.
      destruct d as [|d0 [|d1 [|? ?]]]; try discriminate Hd.
      destruct p as [|p0 [|p1 [|? ?]]]; try discriminate Hp.
      cbn [merged zip_records filter app complete_loop length Nat.eqb
           index nth_error rbind kept nth andb].
      destruct (negb (text_eqb d1 (str "SUBTOTAL"))).
      * cbn [mapR rbind].
        change (coerce [d0; d1; p0; p1])
          with (rbind (py_int d0) (fun s =>
                rbind (py_int p0) (fun t =>
                inr (MkLineItem s d1 t p1)))).
        destruct (py_int d0) as [e|s]; [reflexivity|]. cbn [rbind].
        destruct (py_int p0) as [e|t]; [reflexivity|]. cbn [rbind].
        rewrite IH by assumption.
        destruct (mapR coerce (filter kept (zip_records ds ps)));
          [reflexivity|].
        cbn [rbind]. now rewrite <- app_assoc.
      * now apply IH.
Qed.

Lemma items_group_of_spec (ds ps : list (list text)) :
  Forall is_pair ds -> Forall is_pair ps ->
  items_group_of ds ps = buildLineItems_spec ds ps.
Proof.
  intros Hds Hps. unfold items_group_of, buildLineItems_spec.
  pose proof (merge_loop_merged ds [] [] ps eq_refl Hps) as Hm.
  cbn [length app] in Hm. rewrite Hm.
  cbn [rbind]. rewrite complete_loop_merged by assumption.
  now destruct (mapR coerce _).
Qed.

(** ** [max], [sum] and [in] *)

Lemma fold_max_spec (l : list Z) :
  forall x : Z,
    (fold_left Z.max l x = x \/ In (fold_left Z.max l x) l) /\
    (x <= fold_left Z.max l x)%Z /\
    (forall y, In y l -> (y <= fold_left Z.max l x)%Z).
Proof.
  induction l as [|a l IH]; intros x; cbn [fold_left].
  - repeat split; [now left | lia | intros y []].
  - destruct (IH (Z.max x a)) as (Hin & Hle & Hall).
    repeat split.
    + destruct Hin as [E|Hin].
      * rewrite E. destruct (Z.max_spec x a) as [[_ ->]|[_ ->]];
          [right; now left | now left].
      * right. now right.
    + lia.
    + intros y [<-|Hy]; [lia | now apply Hall].
Qed.

Lemma py_max_spec (l : list Z) (mx : Z) :
  py_max l = inr mx -> In mx l /\ forall y, In y l -> (y <= mx)%Z.
Proof.
  destruct l as [|x l]; [discriminate|].
  cbn [py_max]. intros H. inversion H as [E]. clear H.
  destruct (fold_max_spec l x) as (Hin & Hle & Hall).
  split.
  - destruct Hin as [->|Hin]; [now left | now right].
  - intros y [<-|Hy]; [assumption | now apply Hall].
Qed.

Lemma py_max_nonempty (l : list Z) :
  l <> [] -> exists mx, py_max l = inr mx.
Proof. destruct l; [congruence | intros _; simpl; eauto]. Qed.

Lemma py_in_spec (x : Z) (l : list Z) : py_in x l = true <-> In x l.
Proof.
  unfold py_in. rewrite existsb_exists. split.
  - intros (y & Hy & E). apply Z.eqb_eq in E. now subst.
  - intros H. exists x. split; [assumption | apply Z.eqb_refl].
Qed.

Lemma fold_add_nonpos (l : list Z) :
  forall acc : Z,
    Forall (fun z => (z <= 0)%Z) l -> (fold_left Z.add l acc <= acc)%Z.
Proof.
  induction l as [|a l IH]; intros acc H; cbn [fold_left]; [lia|].
  inversion H; subst. specialize (IH (acc + a)%Z ltac:(assumption)). lia.
Qed.

Lemma span_digits (l : text) : forallb is_digit (fst (span is_digit l)) = true.
Proof.
  destruct (span is_digit l) as [a b] eqn:E.
  now apply span_spec in E as (_ & H & _).
Qed.

(** The discount sum is never positive. *)
Lemma discounts_nonpos (t : text) : (discounts_of t <= 0)%Z.
Proof.
  unfold discounts_of, py_sum. apply fold_add_nonpos.
  apply Forall_forall. intros z Hz. apply in_map_iff in Hz as (l & <- & _).
  pose proof (dval_nonneg _ (span_digits l)). lia.
Qed.

(** [sum] adds the elements up. *)
Lemma fold_add_zsum (l : list Z) :
  forall acc : Z, fold_left Z.add l acc = (acc + zsum l)%Z.
Proof.
  induction l as [|x l IH]; intros acc; cbn [fold_left zsum]; [lia|].
  rewrite IH. lia.
Qed.

Lemma py_sum_zsum (l : list Z) : py_sum l = zsum l.
Proof. unfold py_sum. now rewrite fold_add_zsum. Qed.

(** The discount sum is the sum of the negated amounts of the discount
    lines. *)
Lemma discounts_of_zsum (t : text) :
  discounts_of t =
  zsum (map (fun l => (- dval (amount_digits l))%Z) (discount_lines t)).
Proof.
  unfold discounts_of, discount_lines, amount_digits.
  rewrite py_sum_zsum. f_equal. apply map_ext. intros l. lia.
Qed.

(** When [get_subtotal] returns, every digit-only line was parsed. *)
Lemma get_subtotal_inr (self : Receipt) (s : Z) :
  fst (get_subtotal self) = inr s ->
  numbers_parse (file self) = true /\
  py_max (numbers_of (file self)) = inr s.
Proof.
  rewrite get_subtotal_eq.
  destruct (numbers_parse (file self)); [|discriminate]. auto.
Qed.

(** When [get_total] returns, every digit-only line and every discount line
    was parsed. *)
Lemma get_total_inr (self : Receipt) (t : Z) :
  fst (get_total self) = inr t ->
  discounts_parse (file self) = true /\
  numbers_parse (file self) = true /\
  exists s,
    py_max (numbers_of (file self)) = inr s /\
    t = (if py_in (s + discounts_of (file self)) (numbers_of (file self))
         then s + discounts_of (file self) else s)%Z.
Proof.
  rewrite get_total_eq.
  destruct (discounts_parse (file self)); [|discriminate].
  destruct (numbers_parse (file self)); [|discriminate].
  cbn [andb fst].
  destruct (py_max (numbers_of (file self))) as [e|s]; [discriminate|].
  intros H. inversion H. eauto.
Qed.

Lemma get_subtotal_file (self : Receipt) :
  file (snd (get_subtotal self)) = file self.
Proof. rewrite get_subtotal_eq. now destruct (numbers_parse _). Qed.

Lemma get_total_file (self : Receipt) :
  file (snd (get_total self)) = file self.
Proof. rewrite get_total_eq. now destruct (_ && _). Qed.

(** The result of [get_total] depends on the text only. *)
Lemma get_total_fst_file (r1 r2 : Receipt) :
  file r1 = file r2 -> fst (get_total r1) = fst (get_total r2).
Proof.
  intros E. rewrite !get_total_eq, E. now destruct (_ && _).
Qed.

(** ** The methods as functions of the text *)

Lemma get_items_group_pure (self : Receipt) :
  get_items_group self = (fst (get_items_group (init (file self))), self).
Proof.
  unfold get_items_group, get_raw_sku_and_descriptions, get_raw_prices.
  rewrite !bind_eq, !get_all_matches_eq, !lift_eq. cbn [init file].
  destruct (sku_loop _ _); [reflexivity|].
  rewrite !bind_eq, !get_all_matches_eq, !lift_eq. cbn [init file].
  destruct (prices_loop _ _); reflexivity.
Qed.

Lemma get_receipt_dictionary_pure (self : Receipt) :
  fst (get_receipt_dictionary self) =
  fst (get_receipt_dictionary (init (file self))) /\
  file (snd (get_receipt_dictionary self)) = file self.
Proof.
  unfold get_receipt_dictionary, get_date, get_invoice_number.
  rewrite !bind_eq, !search_pattern_eq. cbn [init file].
  destruct (re_search Pattern.date (file self)); [|split; reflexivity].
  rewrite !bind_eq, !get_address_eq. cbn [init file].
  destruct (line_before_vendedor _); [|split; reflexivity].
  rewrite !bind_eq, !search_pattern_eq. cbn [init file].
  destruct (re_search Pattern.invoice_number (file self));
    [|split; reflexivity].
  rewrite !bind_eq, !get_subtotal_eq. cbn [init file].
  destruct (numbers_parse (file self)) eqn:Ep; [|split; reflexivity].
  destruct (py_max _) eqn:Emax; [split; reflexivity|].
  rewrite !bind_eq, !get_total_eq. cbn [init file]. rewrite Ep.
  destruct (discounts_parse (file self)); cbn [andb]; [|split; reflexivity].
  rewrite Emax.
  rewrite !bind_eq, (get_items_group_pure (MkReceipt _ _)). cbn [init file].
  destruct (fst (get_items_group (init (file self)))); split; reflexivity.
Qed.

Lemma get_date_eq (self : Receipt) :
  get_date self =
  (match re_search Pattern.date (file self) with
   | Some mt => inr (group0 mt)
   | None => inl AttributeError
   end, self).
Proof. apply search_pattern_eq. Qed.

Lemma get_invoice_number_eq (self : Receipt) :
  get_invoice_number self =
  (match re_search Pattern.invoice_number (file self) with
   | Some mt => inr (group0 mt)
   | None => inl AttributeError
   end, self).
Proof. apply search_pattern_eq. Qed.

(** [get_address] in terms of [re.search]. *)
Lemma get_address_search (self : Receipt) :
  get_address self =
  (match re_search Pattern.address (file self) with
   | Some mt => inr (strip (truncate_at (str "TEL:") (group0 mt)))
   | None => inl AttributeError
   end, self).
Proof.
  unfold get_address. rewrite bind_eq, search_pattern_eq.
  destruct (re_search Pattern.address (file self)); [|reflexivity].
  rewrite bind_eq, lift_eq, split_head. reflexivity.
Qed.

(** ** A complete receipt *)

Example full_example_dictionary :
  fst (get_receipt_dictionary (init full_example)) =
  inr (MkReceiptDict (str "01/02/2023") (str "TIENDA 1 CRA 7") (str "00045")
         600 500 [MkLineItem 1234567890123 (str "WIDGET") 500 []]).
Proof. vm_compute. reflexivity. Qed.

Example full_example_raw_prices :
  fst (get_raw_prices (init full_example)) =
  inr [[str "500"; []]; [str "1000"; str "A"]; [str "77"; []];
       [str "600"; []]].
Proof. vm_compute. reflexivity. Qed.

(** * The properties of the specification *)

(** C1, as stated, does not hold: on the text
    "123 Main St\nTEL:555\nVENDEDOR\n..." [get_address] does not return
    "123 Main St". *)
Lemma get_address_example_not_main_st :
  fst (get_address (init address_example)) <> inr (str "123 Main St").
Proof. vm_compute. discriminate. Qed.

(** C1, amended: the dot of the pattern does not cross a newline, so
    [get_address] takes the single line just before the first line (after the
    first) that begins with VENDEDOR, keeps what precedes the first "TEL:" in
    it and strips the whitespace at both ends; without such a line it raises.
    On "123 Main St\nTEL:555\nVENDEDOR\n..." that line is "TEL:555" and the
    result is the empty string; on "123 Main St TEL:555\nVENDEDOR\n..." the
    result is "123 Main St". *)
Theorem get_address_line_before_vendedor (self : Receipt) :
  get_address self =
  (match line_before_vendedor (lines (file self)) with
   | Some l => inr (strip (truncate_at (str "TEL:") l))
   | None => inl AttributeError
   end, self) /\
  fst (get_address (init address_example)) = inr [] /\
  fst (get_address (init address_one_line_example)) = inr (str "123 Main St").
Proof.
  split; [apply get_address_eq|].
  split; vm_compute; reflexivity.
Qed.

(** C2: with [sub] the subtotal, the discount sum is the sum of the negated
    amounts of all the lines made of digits and a trailing minus sign, it is
    never positive, and [get_total] returns the candidate [sub + discounts]
    exactly when the candidate is among the freestanding integers that
    [get_subtotal] stored, and [sub] otherwise; the one case in which it does
    not return after [get_subtotal] did is a discount line of more than 4300
    digits, which [int] refuses.  With the lines 100, 15, 85 and 15- it
    returns 85; without the line 85 it returns 100; with the lines 100, 90,
    85, 10- and 5- it returns 85. *)
Theorem get_total_candidate_or_subtotal (self : Receipt) (sub : Z) :
  fst (get_subtotal self) = inr sub ->
  let ns := map dval (filter is_integer_line (lines (file self))) in
  let discounts :=
    zsum (map (fun l => (- dval (amount_digits l))%Z)
              (discount_lines (file self))) in
  let candidate := (sub + discounts)%Z in
  numbers (snd (get_subtotal self)) = Some ns /\
  (discounts <= 0)%Z /\
  (if discounts_parse (file self)
   then exists v, fst (get_total self) = inr v /\
          (v = candidate <-> In candidate ns) /\
          (~ In candidate ns -> v = sub)
   else fst (get_total self) = inl ValueError) /\
  fst (get_total (init total_example)) = inr 85%Z /\
  fst (get_total (init total_absent_example)) = inr 100%Z /\
  fst (get_total (init two_discounts_example)) = inr 85%Z.
Proof.
  intros Hsub ns discounts candidate.
  destruct (get_subtotal_inr self sub Hsub) as [Hp Hmax].
  rewrite get_subtotal_eq, Hp. cbn [snd numbers].
  fold (numbers_of (file self)) in ns.
  assert (Ed : discounts = discounts_of (file self))
    by (symmetry; apply discounts_of_zsum).
  split; [reflexivity|].
  split; [rewrite Ed; apply discounts_nonpos|].
  split; [|repeat split; vm_compute; reflexivity].
  rewrite get_total_eq, Hp.
  destruct (discounts_parse (file self)); cbn [andb fst]; [|reflexivity].
  rewrite Hmax. rewrite <- Ed. fold candidate. fold ns.
  destruct (py_max_spec _ _ Hmax) as [Hin _].
  destruct (py_in candidate ns) eqn:E.
  - exists candidate. apply py_in_spec in E.
    repeat split; auto. intros Hn. contradiction.
  - exists sub. assert (Hn : ~ In candidate ns).
    { intros Hc. apply py_in_spec in Hc. congruence. }
    repeat split; auto.
    + intros Ec. exfalso. apply Hn. now rewrite <- Ec.
    + intros Hc. contradiction.
Qed.

Lemma get_total_candidate_or_subtotal_witness :
  fst (get_subtotal (init two_discounts_example)) = inr 100%Z /\
  exists v, fst (get_total (init two_discounts_example)) = inr v /\
    (v = (100 + (-10 + (-5 + 0)))%Z <->
     In (100 + (-10 + (-5 + 0)))%Z [100; 90; 85]%Z).
Proof.
  assert (H : fst (get_subtotal (init two_discounts_example)) = inr 100%Z)
    by (vm_compute; reflexivity).
  split; [exact H|].
  destruct (get_total_candidate_or_subtotal (init two_discounts_example)
              100%Z H) as (_ & _ & Ht & _).
  assert (Hp : discounts_parse (file (init two_discounts_example)) = true)
    by (vm_compute; reflexivity).
  rewrite Hp in Ht. destruct Ht as (v & Hv & Hiff & _).
  exists v. split; [exact Hv | exact Hiff].
Defined.

(** C3: on two lists of pairs, the body of [get_items_group] returns what the
    specification describes: the two lists zipped up to the shorter one, the
    four-field records whose description is not SUBTOTAL kept, [sku] and
    [total] coerced to integers; so does [get_items_group] on a receipt whose
    raw lists they are.  On the descriptions
    [["1234567890123","WIDGET"],["","SUBTOTAL"]] and the prices
    [["500","A"],["1000",""]] the result is the single item
    {sku: 1234567890123, description: "WIDGET", total: 500, taxCode: "A"}. *)
Theorem get_items_group_zip_filter (ds ps : list (list text)) :
  Forall is_pair ds -> Forall is_pair ps ->
  items_group_of ds ps = buildLineItems_spec ds ps /\
  (forall self,
     fst (get_raw_sku_and_descriptions self) = inr ds ->
     fst (get_raw_prices self) = inr ps ->
     get_items_group self = (buildLineItems_spec ds ps, self)) /\
  items_group_of descriptions_example prices_example =
  inr [MkLineItem 1234567890123 (str "WIDGET") 500 (str "A")].
Proof.
  intros Hds Hps.
  split; [now apply items_group_of_spec|].
  split; [|vm_compute; reflexivity].
  intros self H1 H2.
  destruct (get_raw_sku_and_descriptions_ok self) as (ds' & E1 & _).
  destruct (get_raw_prices_ok self) as (ps' & E2 & _).
  rewrite E1 in H1. rewrite E2 in H2. cbn [fst] in H1, H2.
  inversion H1; inversion H2; subst ds' ps'.
  unfold get_items_group. rewrite bind_eq, E1, bind_eq, E2, lift_eq.
  now rewrite items_group_of_spec.
Qed.

Lemma get_items_group_zip_filter_witness :
  (Forall is_pair descriptions_example /\ Forall is_pair prices_example) /\
  items_group_of descriptions_example prices_example =
  buildLineItems_spec descriptions_example prices_example.
Proof.
  assert (H1 : Forall is_pair descriptions_example)
    by (repeat constructor).
  assert (H2 : Forall is_pair prices_example)
    by (repeat constructor).
  split; [split; assumption|].
  exact (proj1 (get_items_group_zip_filter _ _ H1 H2)).
Defined.

(** C4: when a pattern has no match in the text, [search_pattern] raises
    (the [None] that [re.search] returns has no [group]); it does not return
    an empty string.  The error comes out of [get_date], [get_address] and
    [get_invoice_number] when the pattern is theirs, and then out of
    [get_receipt_dictionary], which builds no dictionary. *)
Theorem search_pattern_not_found (pattern : regex) (self : Receipt) :
  re_search pattern (file self) = None ->
  search_pattern pattern self = (inl AttributeError, self) /\
  (pattern = Pattern.date -> get_date self = (inl AttributeError, self)) /\
  (pattern = Pattern.address ->
     get_address self = (inl AttributeError, self)) /\
  (pattern = Pattern.invoice_number ->
     get_invoice_number self = (inl AttributeError, self)) /\
  (pattern = Pattern.date \/ pattern = Pattern.address \/
   pattern = Pattern.invoice_number ->
     get_receipt_dictionary self = (inl AttributeError, self)).
Proof.
  intros H.
  assert (Hd : pattern = Pattern.date ->
               get_date self = (inl AttributeError, self))
    by (intros ->; now rewrite get_date_eq, H).
  assert (Ha : pattern = Pattern.address ->
               get_address self = (inl AttributeError, self))
    by (intros ->; now rewrite get_address_search, H).
  assert (Hi : pattern = Pattern.invoice_number ->
               get_invoice_number self = (inl AttributeError, self))
    by (intros ->; now rewrite get_invoice_number_eq, H).
  split; [now rewrite search_pattern_eq, H|].
  repeat (split; [assumption|]).
  intros Hp. unfold get_receipt_dictionary.
  rewrite bind_eq, get_date_eq.
  destruct (re_search Pattern.date (file self)) eqn:Ed.
  2:{ reflexivity. }
  rewrite bind_eq, get_address_search.
  destruct (re_search Pattern.address (file self)) eqn:Ea.
  2:{ reflexivity. }
  rewrite bind_eq, get_invoice_number_eq.
  destruct (re_search Pattern.invoice_number (file self)) eqn:Ei.
  2:{ reflexivity. }
  destruct Hp as [-> | [-> | ->]]; congruence.
Qed.

Lemma search_pattern_not_found_witness :
  re_search Pattern.date (file (init address_example)) = None /\
  get_receipt_dictionary (init address_example) =
  (inl AttributeError, init address_example).
Proof.
  assert (H : re_search Pattern.date (file (init address_example)) = None)
    by (vm_compute; reflexivity).
  split; [exact H|].
  apply (search_pattern_not_found Pattern.date (init address_example) H).
  now left.
Defined.

(** C5: [get_subtotal] parses every line that consists solely of digits and
    returns the maximum of the values: whenever it returns, the result is
    one of these values and none is larger.  It returns exactly when there
    is at least one such line and none has more than 4300 digits (which
    [int] refuses); otherwise it raises.  On the lines 10, 25 and 7 it
    returns 25. *)
Theorem get_subtotal_is_max (self : Receipt) :
  let ls := filter is_integer_line (lines (file self)) in
  let ns := map dval ls in
  (forall mx, fst (get_subtotal self) = inr mx ->
     In mx ns /\ forall y, In y ns -> (y <= mx)%Z) /\
  (if forallb within_limit ls
   then match ns with
        | [] => fst (get_subtotal self) = inl ValueError
        | _ :: _ => exists mx, fst (get_subtotal self) = inr mx
        end
   else fst (get_subtotal self) = inl ValueError) /\
  map dval (filter is_integer_line (lines subtotal_example)) =
    [10; 25; 7]%Z /\
  fst (get_subtotal (init subtotal_example)) = inr 25%Z.
Proof.
  intros ls ns. split; [|split; [|split; vm_compute; reflexivity]].
  - intros mx H. apply get_subtotal_inr in H as [_ H].
    now apply py_max_spec.
  - rewrite get_subtotal_eq. unfold numbers_parse, digit_lines. fold ls.
    destruct (forallb within_limit ls); [|reflexivity].
    cbn [fst]. unfold numbers_of. fold ls. fold ns.
    destruct ns as [|x l] eqn:E; [reflexivity|].
    apply py_max_nonempty. discriminate.
Qed.

(** C6: when one of the two raw extractors returns the empty list,
    [get_items_group] returns the empty list and does not raise. *)
Theorem get_items_group_empty (self : Receipt) :
  fst (get_raw_sku_and_descriptions self) = inr [] \/
  fst (get_raw_prices self) = inr [] ->
  get_items_group self = (inr [], self).
Proof.
  intros H.
  destruct (get_raw_sku_and_descriptions_ok self) as (ds & E1 & Hds).
  destruct (get_raw_prices_ok self) as (ps & E2 & Hps).
  rewrite E1, E2 in H. cbn [fst] in H.
  unfold get_items_group. rewrite bind_eq, E1, bind_eq, E2, lift_eq.
  f_equal. destruct H as [H|H]; inversion H; subst.
  - reflexivity.
  - unfold items_group_of. cbn [length]. rewrite Nat.min_0_r.
    cbn [seq merge_loop rbind]. now apply complete_loop_pairs.
Qed.

Lemma get_items_group_empty_witness :
  fst (get_raw_sku_and_descriptions (init subtotal_example)) = inr [] /\
  get_items_group (init subtotal_example) = (inr [], init subtotal_example).
Proof.
  assert (H : fst (get_raw_sku_and_descriptions (init subtotal_example))
              = inr []) by (vm_compute; reflexivity).
  split; [exact H|].
  apply (get_items_group_empty (init subtotal_example)). now left.
Defined.

(** C7: [get_total] computes the freestanding integers itself, by calling
    [get_subtotal] before it reads them: its result is the same after a call
    of [get_subtotal], and the same whatever the attribute [numbers] held
    before (or if it did not exist).  Whenever it returns, the list it has
    tested the candidate against is the one [get_subtotal] stores for the
    same text, the values of the digit-only lines. *)
Theorem get_total_call_order_independent (self : Receipt) :
  fst (get_total (snd (get_subtotal self))) = fst (get_total self) /\
  (forall ns, fst (get_total (MkReceipt (file self) ns)) =
              fst (get_total self)) /\
  (forall t, fst (get_total self) = inr t ->
     numbers (snd (get_total self)) = numbers (snd (get_subtotal self)) /\
     numbers (snd (get_total (snd (get_subtotal self)))) =
       numbers (snd (get_subtotal self))) /\
  (forall s, fst (get_subtotal self) = inr s ->
     numbers (snd (get_subtotal self)) =
       Some (map dval (filter is_integer_line (lines (file self))))).
Proof.
  split; [apply get_total_fst_file, get_subtotal_file|].
  split; [intros ns; now apply get_total_fst_file|].
  split.
  - intros t H. apply get_total_inr in H as (Hd & Hn & _).
    rewrite get_subtotal_eq, Hn, !get_total_eq. cbn [snd file].
    now rewrite Hd, Hn.
  - intros s H. apply get_subtotal_inr in H as [Hn _].
    now rewrite get_subtotal_eq, Hn.
Qed.

(** C8: a second call of [get_receipt_dictionary] on the same object returns
    the same dictionary as the first (or raises the same error), and the
    result is a function of the text alone. *)
Theorem get_receipt_dictionary_idempotent (self : Receipt) :
  fst (get_receipt_dictionary (snd (get_receipt_dictionary self))) =
  fst (get_receipt_dictionary self) /\
  fst (get_receipt_dictionary self) =
  fst (get_receipt_dictionary (init (file self))).
Proof.
  destruct (get_receipt_dictionary_pure self) as [H1 H2].
  destruct (get_receipt_dictionary_pure (snd (get_receipt_dictionary self)))
    as [H3 _].
  split; [|exact H1]. now rewrite H3, H2, H1.
Qed.

(** C9: when both return, the total is at most the subtotal. *)
Theorem get_total_le_subtotal (self : Receipt) (t s : Z) :
  fst (get_total self) = inr t ->
  fst (get_subtotal self) = inr s ->
  (t <= s)%Z.
Proof.
  intros Ht Hs.
  apply get_total_inr in Ht as (_ & _ & s' & Hmax & ->).
  apply get_subtotal_inr in Hs as [_ Hs].
  assert (s' = s) by congruence. subst s'.
  pose proof (discounts_nonpos (file self)).
  destruct (py_in _ _); lia.
Qed.

Lemma get_total_le_subtotal_witness :
  (fst (get_total (init total_example)) = inr 85%Z /\
   fst (get_subtotal (init total_example)) = inr 100%Z) /\
  (85 <= 100)%Z.
Proof.
  assert (H1 : fst (get_total (init total_example)) = inr 85%Z)
    by (vm_compute; reflexivity).
  assert (H2 : fst (get_subtotal (init total_example)) = inr 100%Z)
    by (vm_compute; reflexivity).
  split; [split; assumption|].
  exact (get_total_le_subtotal (init total_example) 85 100 H1 H2).
Defined.

(** C10: no method changes the attribute [file].  The searches, the scalar
    extractors and the item extractors leave the whole object as it was;
    [get_subtotal] writes [numbers] and nothing else, and so do [get_total]
    and [get_receipt_dictionary] through it. *)
Theorem file_unchanged (self : Receipt) (pattern : regex) :
  snd (search_pattern pattern self) = self /\
  snd (get_all_matches pattern self) = self /\
  snd (get_date self) = self /\
  snd (get_address self) = self /\
  snd (get_invoice_number self) = self /\
  snd (get_raw_sku_and_descriptions self) = self /\
  snd (get_raw_prices self) = self /\
  snd (get_items_group self) = self /\
  file (snd (get_subtotal self)) = file self /\
  file (snd (get_total self)) = file self /\
  file (snd (get_receipt_dictionary self)) = file self.
Proof.
  rewrite search_pattern_eq, get_all_matches_eq, get_date_eq,
    get_address_eq, get_invoice_number_eq, get_items_group_pure,
    get_subtotal_file, get_total_file.
  destruct (get_raw_sku_and_descriptions_ok self) as (ds & -> & _).
  destruct (get_raw_prices_ok self) as (ps & -> & _).
  cbn [snd file]. repeat split.
  apply get_receipt_dictionary_pure.
Qed.

(** * Further properties *)

(** ** Subtotal and total *)

Lemma numbers_nonneg (t : text) (x : Z) : In x (numbers_of t) -> (0 <= x)%Z.
Proof.
  unfold numbers_of. intros H. apply in_map_iff in H as (l & <- & Hl).
  apply filter_In in Hl as [_ Hl]. unfold is_integer_line in Hl.
  apply andb_true_iff in Hl as [_ Hl]. now apply dval_nonneg.
Qed.

Lemma numbers_nil_iff (t : text) :
  numbers_of t = [] <-> filter is_integer_line (lines t) = [].
Proof.
  unfold numbers_of. split; intros H.
  - now apply map_eq_nil in H.
  - now rewrite H.
Qed.

Lemma py_max_error (l : list Z) (e : exn) :
  py_max l = inl e <-> l = [] /\ e = ValueError.
Proof.
  destruct l as [|x l]; simpl; split.
  - intros H. inversion H. auto.
  - intros [_ ->]. reflexivity.
  - discriminate.
  - intros [H _]. discriminate.
Qed.

(** X3: a total that [get_total] returns is one of the freestanding integers
    of the text (the subtotal itself or the candidate found among them), and
    it is not negative. *)
Theorem get_total_is_freestanding_integer (self : Receipt) (t : Z) :
  fst (get_total self) = inr t ->
  In t (map dval (filter is_integer_line (lines (file self)))) /\ (0 <= t)%Z.
Proof.
  intros H. apply get_total_inr in H as (_ & _ & s & Emax & ->).
  fold (numbers_of (file self)).
  assert (Hin : In (if py_in (s + discounts_of (file self))
                          (numbers_of (file self))
                    then (s + discounts_of (file self))%Z else s)
                   (numbers_of (file self))).
  { destruct (py_in _ _) eqn:Ein.
    - now apply py_in_spec.
    - now apply py_max_spec. }
  split; [assumption|]. now apply (numbers_nonneg (file self)).
Qed.

Lemma get_total_is_freestanding_integer_witness :
  fst (get_total (init total_example)) = inr 85%Z /\
  In 85%Z (map dval (filter is_integer_line
                       (lines (file (init total_example))))) /\
  (0 <= 85)%Z.
Proof.
  assert (H : fst (get_total (init total_example)) = inr 85%Z)
    by (vm_compute; reflexivity).
  split; [exact H|].
  exact (get_total_is_freestanding_integer (init total_example) 85 H).
Defined.

(** X4: on a text without a discount line (digits and a trailing minus
    sign) [get_total] does what [get_subtotal] does: the same result or
    error, and the same final state. *)
Theorem get_total_without_discount (self : Receipt) :
  filter is_negative_line (lines (file self)) = [] ->
  get_total self = get_subtotal self.
Proof.
  intros H. rewrite get_total_eq, get_subtotal_eq.
  assert (Ed : discounts_parse (file self) = true)
    by (unfold discounts_parse, discount_lines; now rewrite H).
  rewrite Ed. cbn [andb].
  destruct (numbers_parse (file self)); [|reflexivity]. f_equal.
  assert (E : discounts_of (file self) = 0%Z)
    by (unfold discounts_of; now rewrite H).
  rewrite E.
  destruct (py_max (numbers_of (file self))) as [e|s] eqn:Emax;
    [reflexivity|].
  rewrite Z.add_0_r. now destruct (py_in _ _).
Qed.

Lemma get_total_without_discount_witness :
  filter is_negative_line (lines (file (init no_discount_example))) = [] /\
  get_total (init no_discount_example) =
  get_subtotal (init no_discount_example).
Proof.
  assert (H : filter is_negative_line
                (lines (file (init no_discount_example))) = [])
    by (vm_compute; reflexivity).
  split; [exact H|].
  exact (get_total_without_discount (init no_discount_example) H).
Defined.

(** X5: the only error of [get_subtotal] and [get_total] is ValueError.
    [get_subtotal] raises it exactly when the text has no line made solely
    of digits (the error of [max] on an empty list) or has such a line of
    more than 4300 digits (the error of [int]); [get_total] raises it in
    these cases and when a discount line has more than 4300 digits, and
    never for want of the attribute [numbers].  A line of 4301 digits makes
    both raise; a discount line of 4301 digits makes [get_total] raise
    where [get_subtotal] returns. *)
Theorem subtotal_total_errors (self : Receipt) (e : exn) :
  let ls := filter is_integer_line (lines (file self)) in
  let ds := filter is_negative_line (lines (file self)) in
  (fst (get_subtotal self) = inl e <->
   e = ValueError /\ (ls = [] \/ forallb within_limit ls = false)) /\
  (fst (get_total self) = inl e <->
   e = ValueError /\
   (ls = [] \/ forallb within_limit ls = false \/
    forallb (fun l => within_limit (amount_digits l)) ds = false)) /\
  fst (get_subtotal (init long_number_example)) = inl ValueError /\
  fst (get_total (init long_number_example)) = inl ValueError /\
  fst (get_subtotal (init long_discount_example)) = inr 7%Z /\
  fst (get_total (init long_discount_example)) = inl ValueError.
Proof.
  intros ls ds.
  split; [|split; [|split; [|split; [|split]]; vm_compute; reflexivity]].
  - rewrite get_subtotal_eq. unfold numbers_parse, digit_lines. fold ls.
    destruct (forallb within_limit ls); cbn [fst].
    + rewrite py_max_error, numbers_nil_iff. fold ls.
      split; [intros [H ->]; auto|].
      intros [-> [H|H]]; [auto|discriminate].
    + split; [intros H; inversion H; auto|intros [-> _]; reflexivity].
  - rewrite get_total_eq.
    unfold discounts_parse, discount_lines, numbers_parse, digit_lines.
    fold ls. fold ds.
    destruct (forallb (fun l => within_limit (amount_digits l)) ds);
      destruct (forallb within_limit ls); cbn [andb fst];
      try (split; [intros H; inversion H; auto|intros [-> _]; reflexivity]).
    destruct (py_max (numbers_of (file self))) as [e'|s] eqn:Emax.
    + apply py_max_error in Emax as [Hn ->].
      apply numbers_nil_iff in Hn. fold ls in Hn.
      split; [intros H; inversion H; auto|intros [-> _]; reflexivity].
    + split; [discriminate|].
      intros [_ [H|[H|H]]]; try discriminate.
      apply numbers_nil_iff in H. rewrite H in Emax. discriminate.
Qed.

(** ** [search] of a pattern that matches whole lines *)

Section LineSearch.

Variables (r : regex) (P : text -> bool).

Hypothesis search_inside : forall pre rest,
  bol pre = false -> match_at r pre rest false = None.

Hypothesis search_line : forall pre line tail,
  bol pre = true -> no_nl line -> line_end tail ->
  option_map after (match_at r pre (line ++ tail) false) =
  if P line then Some tail else None.

Lemma search_skip_line (line : text) :
  forall pre tail : text,
    no_nl line -> bol pre = false -> line_end tail ->
    search_from r pre (line ++ tail) =
    match tail with
    | [] => None
    | c :: t => search_from r (c :: rev line ++ pre) t
    end.
Proof.
  induction line as [|c line IH]; intros pre tail Hl Hb Ht.
  - cbn [app]. now rewrite search_from_none by now apply search_inside.
  - inversion Hl as [|? ? Hc Hl']; subst.
    rewrite search_from_none by now apply search_inside.
    cbn [app]. rewrite IH; try assumption.
    + cbn [rev]. now rewrite <- app_assoc.
    + simpl. now apply Ascii.eqb_neq.
Qed.

Lemma search_one_line (line pre tail : text) :
  no_nl line -> bol pre = true -> line_end tail ->
  option_map group0 (search_from r pre (line ++ tail)) =
  if P line then Some line
  else match tail with
       | [] => None
       | c :: t => option_map group0 (search_from r (c :: rev line ++ pre) t)
       end.
Proof.
  intros Hl Hb Ht.
  pose proof (search_line pre line tail Hb Hl Ht) as Hm.
  destruct (match_at r pre (line ++ tail) false) as [s1|] eqn:E;
    destruct (P line); try discriminate.
  - rewrite (search_from_some _ _ _ _ E). simpl in Hm. inversion Hm as [Ha].
    unfold mk_match. cbn [option_map group0]. rewrite Ha.
    replace (length (line ++ tail) - length tail) with (length line)
      by (rewrite length_app; lia).
    rewrite firstn_app, firstn_all, Nat.sub_diag. simpl.
    now rewrite app_nil_r.
  - rewrite (search_from_none _ _ _ E).
    destruct line as [|c line]; [destruct tail; reflexivity|].
    inversion Hl as [|? ? Hc Hl']; subst.
    cbn [app]. rewrite search_skip_line; try assumption.
    + cbn [rev]. rewrite <- app_assoc. destruct tail; reflexivity.
    + simpl. now apply Ascii.eqb_neq.
Qed.

Lemma search_lines (ls : list text) :
  forall pre : text,
    ls <> [] -> Forall no_nl ls -> bol pre = true ->
    option_map group0 (search_from r pre (unlines ls)) = find P ls.
Proof.
  induction ls as [|l ls IH]; intros pre Hne Hl Hb; [congruence|].
  inversion Hl as [|? ? Hl1 Hl2]; subst.
  destruct ls as [|l2 ls].
  - simpl unlines. rewrite <- (app_nil_r l) at 1.
    rewrite search_one_line by (try assumption; exact I).
    simpl. now destruct (P l).
  - rewrite unlines_cons by discriminate.
    rewrite search_one_line by (try assumption; reflexivity).
    cbn [find]. destruct (P l); [reflexivity|].
    apply IH; [discriminate | assumption | reflexivity].
Qed.

(** [search] returns the first line that satisfies [P]. *)
Lemma search_line_pattern (t : text) :
  option_map group0 (re_search r t) = find P (lines t).
Proof.
  unfold re_search. rewrite <- (unlines_lines t) at 1.
  apply search_lines; [apply lines_not_nil | apply lines_no_nl | reflexivity].
Qed.

End LineSearch.

(** ** The date pattern *)

Lemma date_inside (pre rest : text) :
  bol pre = false -> match_at Pattern.date pre rest false = None.
Proof.
  intros Hb. unfold match_at, Pattern.date. cbn [cat m].
  unfold at_bol. cbn [before].
  change (match pre with [] => true | c :: _ => Ascii.eqb c nl end)
    with (bol pre).
  now rewrite Hb.
Qed.

Ltac date_reduce :=
  cbn [m cat Times rep step after before groups opt_pred option_map pred
       length app Nat.add set_group with_groups at_eol is_date_line andb];
  try change (is_digit nl) with false;
  try change (Ascii.eqb "/" nl) with false;
  try change (Ascii.eqb nl nl) with true;
  cbn [andb].

Ltac date_cases :=
  repeat (first
    [ reflexivity
    | match goal with
      | H : Ascii.eqb ?c nl = false |- context [Ascii.eqb ?c nl] =>
          rewrite H
      | |- context [is_digit ?c] => destruct (is_digit c)
      | |- context [Ascii.eqb "/" ?c] => destruct (Ascii.eqb "/" c)
      end; date_reduce ]).

(** At the start of a line the date pattern matches the whole line when it
    has the form dd/dd/dddd, and nothing otherwise. *)
Lemma date_line (pre line tail : text) :
  bol pre = true -> no_nl line -> line_end tail ->
  option_map after (match_at Pattern.date pre (line ++ tail) false) =
  if is_date_line line then Some tail else None.
Proof.
  intros Hb Hl Ht. unfold match_at, Pattern.date. cbn [cat m].
  unfold at_bol at 1. cbn [before].
  change (match pre with [] => true | c :: _ => Ascii.eqb c nl end)
    with (bol pre).
  rewrite Hb.
  assert (Hnl : forall c, In c line -> Ascii.eqb c nl = false).
  { intros c Hc. apply Ascii.eqb_neq. unfold no_nl in Hl.
    rewrite Forall_forall in Hl. now apply Hl. }
  clear Hl.
  destruct tail as [|t tail]; [|simpl in Ht; subst t];
  (destruct line as [|c1 line]; [date_reduce; date_cases|]);
  (destruct line as [|c2 line]; [date_reduce; date_cases|]);
  (destruct line as [|c3 line]; [date_reduce; date_cases|]);
  (destruct line as [|c4 line]; [date_reduce; date_cases|]);
  (destruct line as [|c5 line]; [date_reduce; date_cases|]);
  (destruct line as [|c6 line]; [date_reduce; date_cases|]);
  (destruct line as [|c7 line]; [date_reduce; date_cases|]);
  (destruct line as [|c8 line]; [date_reduce; date_cases|]);
  (destruct line as [|c9 line]; [date_reduce; date_cases|]);
  (destruct line as [|c10 line]; [date_reduce; date_cases|]);
  (destruct line as [|c11 line]; [date_reduce; date_cases|]).
  all: assert (H11 : Ascii.eqb c11 nl = false)
         by (apply Hnl; do 10 right; now left);
       date_reduce; date_cases.
Qed.

Lemma date_search (t : text) :
  option_map group0 (re_search Pattern.date t) = find is_date_line (lines t).
Proof. apply search_line_pattern; [apply date_inside | apply date_line]. Qed.

(** X1: [get_date] returns the first line of the text that has the form
    dd/dd/dddd (two digits, a slash, two digits, a slash, four digits, and
    nothing else on the line), unchanged; it raises when the text has no
    such line. *)
Theorem get_date_first_date_line (self : Receipt) :
  get_date self =
  (match find is_date_line (lines (file self)) with
   | Some l => inr l
   | None => inl AttributeError
   end, self).
Proof.
  rewrite get_date_eq. rewrite <- date_search.
  now destruct (re_search Pattern.date (file self)).
Qed.

(** ** The invoice pattern *)

(** A greedy repetition of a one-character class takes the whole maximal run
    when the continuation accepts the position after it. *)
Lemma rep_class_first (p : ascii -> bool) (ds : text) :
  forall (pre rest : text) (gs : list (nat * text)) (lo fuel : nat)
         (k : cont) (x : mstate),
    forallb p ds = true ->
    match rest with [] => True | c :: _ => p c = false end ->
    lo + length (ds ++ rest) <= fuel ->
    lo <= length ds ->
    k (MState (rev ds ++ pre) rest gs) = Some x ->
    rep (step p) fuel lo None (MState pre (ds ++ rest) gs) k = Some x.
Proof.
  induction ds as [|d ds IH];
    intros pre rest gs lo fuel k x Hds Hrest Hf Hlo Hk.
  - simpl in Hlo. assert (lo = 0) by lia. subst lo.
    destruct fuel as [|f]; simpl; [exact Hk|].
    unfold step; simpl. destruct rest as [|c rest]; [exact Hk|].
    now rewrite Hrest.
  - simpl in Hds. apply andb_true_iff in Hds as [Hd Hds].
    destruct fuel as [|f]; [simpl in Hf; lia|].
    assert (Hk' : k (MState (rev ds ++ d :: pre) rest gs) = Some x)
      by (simpl in Hk; now rewrite <- app_assoc in Hk).
    destruct lo as [|lo]; simpl; unfold step at 1; simpl; rewrite Hd.
    + replace (length (ds ++ rest) <? S (length (ds ++ rest))) with true
        by (symmetry; apply Nat.ltb_lt; lia).
      rewrite (IH _ _ _ _ _ _ x); try assumption; try reflexivity.
      * simpl in Hf. lia.
      * lia.
    + apply IH; try assumption.
      * simpl in Hf. lia.
      * simpl in Hlo. lia.
Qed.

Lemma startswith_app (v x : text) : startswith v (v ++ x) = true.
Proof.
  induction v as [|a v IH]; simpl; [reflexivity|].
  now rewrite Ascii.eqb_refl, IH.
Qed.

Lemma startswith_length (v s : text) :
  startswith v s = true -> length v <= length s.
Proof.
  revert s. induction v as [|a v IH]; intros s H; simpl; [lia|].
  destruct s as [|b s]; simpl in H; [discriminate|].
  apply andb_true_iff in H as [_ H]. apply IH in H. simpl. lia.
Qed.

Lemma startswith_eq (v s : text) :
  startswith v s = true -> s = v ++ skipn (length v) s.
Proof.
  revert s. induction v as [|a v IH]; intros s H; [reflexivity|].
  destruct s as [|b s]; simpl in H; [discriminate|].
  apply andb_true_iff in H as [E H]. apply Ascii.eqb_eq in E. subst b.
  simpl. f_equal. now apply IH.
Qed.

Lemma behind_tiquete_length (pre : text) :
  behind_tiquete pre = true -> 8 <= length pre.
Proof.
  destruct pre as [|c p]; cbn [behind_tiquete]; [discriminate|].
  intros H. apply andb_true_iff in H as [_ H].
  apply startswith_length in H. cbn [length]. simpl in H. lia.
Qed.

Ltac bool_cases :=
  repeat (first
    [ reflexivity
    | match goal with
      | |- context [is_space ?c] => destruct (is_space c)
      | |- context [Ascii.eqb ?a ?c] => destruct (Ascii.eqb a c)
      end;
      cbn [m cat lit step after before groups with_groups andb
           behind_tiquete startswith str list_ascii_of_string
           marker_at skipn] ]).

(** The lookbehind of the invoice pattern. *)
Lemma behind_check (s : mstate) (k : cont) :
  m (Behind (cat [lit (str "TIQUETE"); Space])) s k =
  if behind_tiquete (before s)
  then k (MState (before s) (after s) (groups s))
  else None.
Proof.
  destruct s as [pre rest gs]. cbn [m before after groups].
  change (fixed_width (cat [lit (str "TIQUETE"); Space])) with (Some 8).
  destruct pre as [|c8 [|c7 [|c6 [|c5 [|c4 [|c3 [|c2 [|c1 pre]]]]]]]];
    cbn [length Nat.leb rewind firstn skipn rev app before after groups
         m cat lit step with_groups andb behind_tiquete startswith str
         list_ascii_of_string];
    bool_cases.
Qed.

Lemma rest_of_line_spec (s : text) :
  exists tail,
    s = rest_of_line s ++ tail /\ no_nl (rest_of_line s) /\ line_end tail.
Proof.
  unfold rest_of_line. destruct (span not_nl s) as [l tail] eqn:E.
  apply span_spec in E as (-> & Hl & Ht). exists tail. cbn [fst].
  split; [reflexivity|]. split.
  - unfold no_nl. apply Forall_forall. intros c Hc.
    rewrite forallb_forall in Hl. specialize (Hl c Hc).
    unfold not_nl in Hl. apply negb_true_iff in Hl.
    now apply Ascii.eqb_neq.
  - destruct tail as [|c tail]; [exact I|]. simpl.
    unfold not_nl in Ht. apply negb_false_iff in Ht.
    now apply Ascii.eqb_eq.
Qed.

Lemma m_seq (r1 r2 : regex) (s : mstate) (k : cont) :
  m (Seq r1 r2) s k = m r1 s (fun s1 => m r2 s1 k).
Proof. reflexivity. Qed.

(** At any position the invoice pattern matches the rest of the line, and
    only when TIQUETE and a whitespace character come just before. *)
Lemma invoice_match_at (l pre tail : text) :
  no_nl l -> line_end tail ->
  match_at Pattern.invoice_number pre (l ++ tail) false =
  if behind_tiquete pre then Some (MState (rev l ++ pre) tail []) else None.
Proof.
  intros Hl Ht. unfold match_at, Pattern.invoice_number.
  change (cat [Behind (cat [lit (str "TIQUETE"); Space]); Star Dot])
    with (Seq (Behind (cat [lit (str "TIQUETE"); Space]))
              (Seq (Star Dot) Eps)).
  rewrite m_seq, behind_check. cbn [before after groups].
  destruct (behind_tiquete pre); [|reflexivity].
  cbn [m Star after].
  change (m Dot) with (step (fun x => negb (Ascii.eqb x nl))).
  apply rep_class_first; try lia; try reflexivity.
  - now apply no_nl_forallb.
  - destruct tail as [|c tail]; [exact I|]. simpl in Ht. subst c.
    reflexivity.
Qed.

Lemma invoice_search_scan (rest : text) :
  forall pre : text,
    option_map group0 (search_from Pattern.invoice_number pre rest) =
    tiquete_scan pre rest.
Proof.
  induction rest as [|c rest IH]; intros pre.
  - pose proof (invoice_match_at [] pre [] (Forall_nil _) I) as Hm.
    cbn [app] in Hm. cbn [tiquete_scan].
    destruct (behind_tiquete pre).
    + now rewrite (search_from_some _ _ _ _ Hm).
    + now rewrite (search_from_none _ _ _ Hm).
  - destruct (rest_of_line_spec (c :: rest)) as (tail & E & Hl & Ht).
    pose proof (invoice_match_at _ pre tail Hl Ht) as Hm.
    rewrite <- E in Hm. cbn [tiquete_scan].
    destruct (behind_tiquete pre).
    + rewrite (search_from_some _ _ _ _ Hm).
      unfold mk_match. cbn [option_map group0 after]. f_equal.
      rewrite E at 1 2.
      replace (length (rest_of_line (c :: rest) ++ tail) - length tail)
        with (length (rest_of_line (c :: rest)))
        by (rewrite length_app; lia).
      rewrite firstn_app, firstn_all, Nat.sub_diag. simpl firstn.
      now rewrite app_nil_r.
    + rewrite (search_from_none _ _ _ Hm). apply IH.
Qed.

Lemma tiquete_scan_eq (pre rest : text) :
  tiquete_scan pre rest =
  if behind_tiquete pre then Some (rest_of_line rest)
  else match rest with
       | [] => None
       | c :: rest' => tiquete_scan (c :: pre) rest'
       end.
Proof. destruct rest; reflexivity. Qed.

Lemma tiquete_scan_step (c : ascii) (pre rest : text) :
  is_space c = false ->
  tiquete_scan (c :: pre) rest =
  match rest with
  | [] => None
  | c' :: rest' => tiquete_scan (c' :: c :: pre) rest'
  end.
Proof.
  intros H. destruct rest; cbn [tiquete_scan behind_tiquete]; now rewrite H.
Qed.

Lemma marker_at_some (s r : text) :
  marker_at s = Some r ->
  exists w, s = str "TIQUETE" ++ w :: r /\ is_space w = true.
Proof.
  unfold marker_at. destruct (startswith (str "TIQUETE") s) eqn:E;
    [|discriminate].
  apply startswith_eq in E. change (length (str "TIQUETE")) with 7 in E.
  destruct (skipn 7 s) as [|w r'] eqn:Es; [discriminate|].
  destruct (is_space w) eqn:Ew; [|discriminate].
  intros H. inversion H; subst r'. exists w. split; [exact E | exact Ew].
Qed.

(** The marker lies just before position 8 of [s] exactly when [s] begins
    with it. *)
Lemma behind_marker (s pre : text) :
  8 <= length s ->
  behind_tiquete (rev (firstn 8 s) ++ pre) =
  match marker_at s with Some _ => true | None => false end.
Proof.
  destruct s as [|c1 [|c2 [|c3 [|c4 [|c5 [|c6 [|c7 [|c8 s]]]]]]]];
    cbn [length]; try lia.
  intros _. unfold marker_at.
  cbn [firstn rev app behind_tiquete startswith str list_ascii_of_string
       skipn andb].
  destruct (Ascii.eqb "T" c1), (Ascii.eqb "I" c2), (Ascii.eqb "Q" c3),
    (Ascii.eqb "U" c4), (Ascii.eqb "E" c5), (Ascii.eqb "T" c6),
    (Ascii.eqb "E" c7), (is_space c8); reflexivity.
Qed.

Lemma tiquete_scan_forward (s : text) :
  forall pre : text,
    (forall j, j < 8 -> j <= length s ->
       behind_tiquete (rev (firstn j s) ++ pre) = false) ->
    tiquete_scan pre s = after_tiquete s.
Proof.
  induction s as [|c s IH]; intros pre H.
  - pose proof (H 0 ltac:(lia) ltac:(simpl; lia)) as H0. simpl in H0.
    cbn [tiquete_scan]. now rewrite H0.
  - pose proof (H 0 ltac:(lia) ltac:(simpl; lia)) as H0.
    cbn [firstn rev app] in H0.
    cbn [tiquete_scan after_tiquete]. rewrite H0.
    destruct (marker_at (c :: s)) as [r|] eqn:Em.
    + apply marker_at_some in Em as (w & E & Hw).
      cbn [str list_ascii_of_string app] in E. inversion E; subst c s.
      rewrite !tiquete_scan_step by reflexivity.
      rewrite tiquete_scan_eq. cbn [behind_tiquete]. rewrite Hw.
      change ("E" :: "T" :: "E" :: "U" :: "Q" :: "I" :: "T" :: pre)%char
        with (str "ETEUQIT" ++ pre).
      now rewrite startswith_app.
    + apply IH. intros j Hj Hlen.
      replace (rev (firstn j s) ++ c :: pre)
        with (rev (firstn (S j) (c :: s)) ++ pre)
        by (cbn [firstn rev]; now rewrite <- app_assoc).
      destruct (Nat.eq_dec j 7) as [->|Hne].
      * rewrite behind_marker by (simpl; lia). now rewrite Em.
      * apply H; simpl; lia.
Qed.

Lemma invoice_search (t : text) :
  option_map group0 (re_search Pattern.invoice_number t) = after_tiquete t.
Proof.
  unfold re_search. rewrite invoice_search_scan.
  apply tiquete_scan_forward. intros j Hj _.
  destruct (behind_tiquete _) eqn:E; [|reflexivity].
  apply behind_tiquete_length in E.
  rewrite app_nil_r, length_rev, length_firstn in E. lia.
Qed.

Lemma after_tiquete_no_nl (t n : text) : after_tiquete t = Some n -> no_nl n.
Proof.
  induction t as [|c t IH]; cbn [after_tiquete].
  - destruct (marker_at []) as [r|]; [|discriminate].
    intros H. inversion H. now destruct (rest_of_line_spec r) as (_ & _ & ? & _).
  - destruct (marker_at (c :: t)) as [r|]; [|exact IH].
    intros H. inversion H. now destruct (rest_of_line_spec r) as (_ & _ & ? & _).
Qed.

(** X2: [get_invoice_number] returns the rest of the line that follows the
    first occurrence of TIQUETE and one whitespace character (TIQUETE itself
    excluded), so the number never contains a newline; it raises when the
    text has no such occurrence. *)
Theorem get_invoice_number_after_tiquete (self : Receipt) :
  get_invoice_number self =
  (match after_tiquete (file self) with
   | Some n => inr n
   | None => inl AttributeError
   end, self) /\
  (forall n, fst (get_invoice_number self) = inr n -> no_nl n).
Proof.
  assert (E : get_invoice_number self =
              (match after_tiquete (file self) with
               | Some n => inr n
               | None => inl AttributeError
               end, self)).
  { rewrite get_invoice_number_eq, <- invoice_search.
    now destruct (re_search Pattern.invoice_number (file self)). }
  split; [exact E|].
  intros n. rewrite E. cbn [fst].
  destruct (after_tiquete (file self)) as [n'|] eqn:Ea; [|discriminate].
  intros H. inversion H; subst n'. now apply (after_tiquete_no_nl (file self)).
Qed.

(** ** The description pattern *)

Lemma step_some (p : ascii -> bool) (s : mstate) (k : cont) (x : mstate) :
  step p s k = Some x ->
  exists c r, after s = c :: r /\ p c = true /\
              k (MState (c :: before s) r (groups s)) = Some x.
Proof.
  unfold step. destruct (after s) as [|c r]; [discriminate|].
  destruct (p c) eqn:E; [|discriminate]. eauto.
Qed.

(** What a successful repetition of a one-character class consumed. *)
Lemma rep_class_some (p : ascii -> bool) (fuel : nat) :
  forall (lo : nat) (hi : option nat) (s : mstate) (k : cont) (x : mstate),
    match hi with Some h => lo <= h | None => True end ->
    rep (step p) fuel lo hi s k = Some x ->
    exists ds rest,
      after s = ds ++ rest /\ forallb p ds = true /\ lo <= length ds /\
      match hi with Some h => length ds <= h | None => True end /\
      k (MState (rev ds ++ before s) rest (groups s)) = Some x.
Proof.
  induction fuel as [|f IH]; intros lo hi s k x Hb H.
  - simpl in H. destruct lo; [|discriminate].
    exists [], (after s). destruct s. simpl in *.
    repeat split; try lia; [destruct hi; lia | assumption].
  - cbn [rep] in H. destruct lo as [|lo].
    + assert (Hnil : k s = Some x ->
        exists ds rest,
          after s = ds ++ rest /\ forallb p ds = true /\ 0 <= length ds /\
          match hi with Some h => length ds <= h | None => True end /\
          k (MState (rev ds ++ before s) rest (groups s)) = Some x).
      { intros Hk. exists [], (after s). destruct s. simpl in *.
        repeat split; try lia; [destruct hi; lia | assumption]. }
      destruct hi as [[|h]|]; [now apply Hnil | |].
      * destruct (step p s _) as [x'|] eqn:Es; [|now apply Hnil].
        inversion H; subst x'.
        apply step_some in Es as (c & r & Ea & Hc & Hk).
        cbn [after] in Hk. destruct (_ <? _); [|discriminate].
        apply IH in Hk as (ds & rest & E1 & E2 & E3 & E4 & E5);
          [|simpl; lia].
        cbn [after before groups opt_pred option_map pred] in *.
        exists (c :: ds), rest. subst r. rewrite Ea.
        cbn [app forallb length rev]. rewrite Hc, E2, <- app_assoc.
        repeat split; try lia; assumption.
      * destruct (step p s _) as [x'|] eqn:Es; [|now apply Hnil].
        inversion H; subst x'.
        apply step_some in Es as (c & r & Ea & Hc & Hk).
        cbn [after] in Hk. destruct (_ <? _); [|discriminate].
        apply IH in Hk as (ds & rest & E1 & E2 & E3 & E4 & E5);
          [|exact I].
        cbn [after before groups opt_pred option_map] in *.
        exists (c :: ds), rest. subst r. rewrite Ea.
        cbn [app forallb length rev]. rewrite Hc, E2, <- app_assoc.
        repeat split; try lia; assumption.
    + apply step_some in H as (c & r & Ea & Hc & Hk).
      apply IH in Hk as (ds & rest & E1 & E2 & E3 & E4 & E5).
      * cbn [after before groups] in *.
        exists (c :: ds), rest. subst r. rewrite Ea.
        cbn [app forallb length rev]. rewrite Hc, E2, <- app_assoc.
        repeat split; try lia; try assumption.
        destruct hi as [h|]; [|exact I]. simpl in E4. lia.
      * destruct hi as [h|]; [|exact I]. simpl. lia.
Qed.

(** Every element of [findall]'s result comes from a successful attempt of
    the pattern at some position. *)
Lemma findall_from_matches (r : regex) (rest : text) :
  forall (pre : text) (skip : nat) (x : fa_item),
    In x (findall_from r pre rest skip) ->
    exists pre' rest' adv s',
      match_at r pre' rest' adv = Some s' /\
      x = item_of r (mk_match rest' s').
Proof.
  induction rest as [|c rest IH]; intros pre skip x H; cbn [findall_from] in H.
  - destruct skip; [|contradiction].
    destruct (match_at r pre [] false) as [s1|] eqn:E1; [|contradiction].
    destruct H as [<-|H]; [now eauto 8|].
    destruct (_ - _) in H; [|contradiction].
    destruct (match_at r pre [] true) as [s2|] eqn:E2; [|contradiction].
    destruct H as [<-|[]]. now eauto 8.
  - destruct skip; [|now eauto].
    destruct (match_at r pre (c :: rest) false) as [s1|] eqn:E1; [|now eauto].
    destruct H as [<-|H]; [now eauto 8|].
    destruct (_ - _) in H; [|now eauto].
    destruct (match_at r pre (c :: rest) true) as [s2|] eqn:E2; [|now eauto].
    destruct H as [<-|H]; [now eauto 8 | now eauto].
Qed.

Lemma consumed_app (pre ds rest : text) (gs gs' : list (nat * text))
  (pre' : text) :
  consumed (MState pre (ds ++ rest) gs) (MState pre' rest gs') = ds.
Proof.
  unfold consumed. cbn [after].
  replace (length (ds ++ rest) - length rest) with (length ds)
    by (rewrite length_app; lia).
  rewrite firstn_app, firstn_all, Nat.sub_diag. simpl. apply app_nil_r.
Qed.

(** The groups a match of the description pattern captures: a 13-digit code
    and a description, or SUBTOTAL, or nothing (the empty match). *)
Lemma sku_match_groups (pre rest : text) (adv : bool) (s' : mstate) :
  match_at Pattern.sku_and_description pre rest adv = Some s' ->
  (exists code d, groups s' = [(2, d); (1, code)] /\ length code = 13 /\
                  forallb is_digit code = true) \/
  groups s' = [(3, str "SUBTOTAL")] \/
  groups s' = [].
Proof.
  unfold match_at, Pattern.sku_and_description.
  set (K := fun s0 : mstate =>
              if adv && (length (after s0) =? length rest)
              then None else Some s0).
  assert (HK : forall s x, K s = Some x -> x = s).
  { intros s x. unfold K. destruct (_ && _); [discriminate|]. congruence. }
  cbn [m].
  destruct (m (cat _) _ K) as [x|] eqn:EA.
  - intros H. inversion H; subst x. clear H. left.
    cbn [cat m] in EA.
    destruct (at_boundary _); [|discriminate].
    unfold Times in EA. cbn [m] in EA. change (m Digit) with (step is_digit) in EA.
    apply rep_class_some in EA as (code & r1 & E1 & Hd & Hlo & Hhi & EA);
      [|lia].
    cbn [after before groups] in *. subst rest.
    apply step_some in EA as (c & r2 & E2 & _ & EA).
    cbn [set_group after before groups] in *. subst r1.
    rewrite consumed_app in EA.
    unfold Star in EA. cbn [m] in EA.
    change (m Dot) with (step (fun x => negb (Ascii.eqb x nl))) in EA.
    apply rep_class_some in EA as (d & r3 & E3 & _ & _ & _ & EA);
      [|exact I].
    cbn [after before groups] in *. subst r2.
    destruct (at_boundary _); [|discriminate].
    apply step_some in EA as (c' & r4 & _ & _ & EA).
    apply HK in EA. subst s'.
    cbn [set_group groups after before]. rewrite consumed_app.
    exists code, d. repeat split; [lia | assumption].
  - clear EA. unfold Opt. cbn [m after Nat.add].
    destruct (length rest) as [|f] eqn:Ef.
    + cbn [rep]. intros H. apply HK in H. subst s'. now right; right.
    + cbn [rep].
      destruct (m (cat _) _ _) as [x|] eqn:EB; intros H; right.
      * inversion H; subst x. clear H. left.
        cbn [cat m] in EB.
        destruct (at_boundary _); [|discriminate].
        rewrite m_lit in EB. cbn [after before groups] in EB.
        destruct (startswith (str "SUBTOTAL") rest) eqn:Es; [|discriminate].
        apply startswith_eq in Es.
        cbn [set_group before after groups] in EB.
        destruct (at_boundary _); [|discriminate].
        apply step_some in EB as (c' & r4 & _ & _ & EB).
        cbn [after before groups] in EB.
        destruct (_ <? _); [|discriminate].
        assert (E0 : s' = MState (c' :: rev (str "SUBTOTAL") ++ pre) r4
                  [(3, consumed (MState pre rest [])
                         (MState (rev (str "SUBTOTAL") ++ pre)
                            (skipn (length (str "SUBTOTAL")) rest) []))]).
        { destruct f; cbn [rep opt_pred option_map pred] in EB;
            now apply HK in EB. }
        subst s'. cbn [groups]. rewrite Es at 1. now rewrite consumed_app.
      * apply HK in H. subst s'. now right.
Qed.

Lemma sku_items_shape (t : text) (x : fa_item) :
  In x (re_findall Pattern.sku_and_description t) -> sku_tuple x.
Proof.
  intros H. apply findall_from_matches in H as (pre & rest & adv & s' & Hm & ->).
  unfold item_of, mk_match, sku_tuple.
  change (ngroups Pattern.sku_and_description) with 3.
  cbn [mgroups seq map].
  apply sku_match_groups in Hm as [(code & d & -> & Hl & Hd)|[->| ->]].
  - left. exists code, d. cbn [group_or_empty Nat.eqb]. auto.
  - right; left. reflexivity.
  - right; right. reflexivity.
Qed.

Lemma sku_loop_shape (items : list fa_item) :
  forall out : list (list text),
    Forall sku_tuple items -> Forall sku_entry out ->
    exists out', sku_loop items out = inr out' /\ Forall sku_entry out'.
Proof.
  induction items as [|x items IH]; intros out Hx Hout.
  - exists out. split; [reflexivity | assumption].
  - inversion Hx as [|? ? H1 H2]; subst.
    destruct H1 as [(code & d & -> & Hl & Hd)|[->| ->]];
      cbn [sku_loop item_index index nth_error rbind].
    + destruct code as [|c code]; [discriminate Hl|].
      change (negb (text_eqb (c :: code) [])) with true. cbn [rbind].
      destruct (negb (text_eqb d [])) eqn:Ed.
      * apply IH; [assumption|].
        apply Forall_app; split; [assumption|].
        constructor; [|constructor]. left. exists (c :: code), d.
        repeat split; try assumption.
        intros ->. now rewrite text_eqb_refl in Ed.
      * change (negb (text_eqb [] [])) with false. now apply IH.
    + change (negb (text_eqb [] [])) with false. cbn [rbind].
      change (negb (text_eqb (str "SUBTOTAL") [])) with true.
      apply IH; [assumption|].
      apply Forall_app; split; [assumption|].
      constructor; [|constructor]. now right.
    + change (negb (text_eqb [] [])) with false. cbn [rbind].
      now apply IH.
Qed.

Lemma raw_sku_shape (self : Receipt) :
  exists ds,
    get_raw_sku_and_descriptions self = (inr ds, self) /\
    Forall sku_entry ds.
Proof.
  unfold get_raw_sku_and_descriptions.
  rewrite bind_eq, get_all_matches_eq, lift_eq.
  destruct (sku_loop_shape
              (re_findall Pattern.sku_and_description (file self)) [])
    as (ds & -> & Hds).
  - apply Forall_forall. intros x Hx. now apply (sku_items_shape (file self)).
  - constructor.
  - eauto.
Qed.

(** X6: [get_raw_sku_and_descriptions] never raises and leaves the object as
    it was; every entry of its list is a 13-digit code with a non-empty
    description, or the pair of the empty string and SUBTOTAL. *)
Theorem get_raw_sku_and_descriptions_entries (self : Receipt) :
  exists ds,
    get_raw_sku_and_descriptions self = (inr ds, self) /\
    Forall sku_entry ds.
Proof. exact (raw_sku_shape self). Qed.

(** ** The fields of the raw prices *)

(** The pieces of a split on one character are made of the characters of
    the string, and none is that character. *)
Lemma split_char_pieces (c : ascii) (R : ascii -> Prop) (s : text) :
  forall cur : text,
    Forall (fun x => R x /\ x <> c) cur -> Forall R s ->
    Forall (Forall (fun x => R x /\ x <> c)) (split_aux [c] 0 cur s).
Proof.
  induction s as [|a s IH]; intros cur Hcur Hs.
  - simpl. constructor; [|constructor]. now apply Forall_rev.
  - inversion Hs as [|? ? Ha Hs']; subst.
    cbn [split_aux startswith length Nat.sub].
    destruct (Ascii.eqb_spec c a) as [->|Hne]; cbn [andb].
    + constructor; [now apply Forall_rev|]. apply IH; [constructor | assumption].
    + apply IH; [|assumption]. constructor; [|assumption].
      split; [assumption | congruence].
Qed.

Lemma contains_char_false (c : ascii) (s : text) :
  contains [c] s = false -> Forall (fun x => x <> c) s.
Proof.
  induction s as [|a s IH]; intros H; [constructor|].
  cbn [contains startswith] in H. apply orb_false_iff in H as [H1 H2].
  rewrite andb_true_r in H1. apply Ascii.eqb_neq in H1.
  constructor; [congruence | now apply IH].
Qed.

Lemma price_lines_loop_shape (lines : list text) :
  forall prices_list : list (list text),
    Forall no_nl lines -> Forall price_entry prices_list ->
    exists out,
      price_lines_loop lines prices_list = inr out /\
      Forall price_entry out.
Proof.
  induction lines as [|elem2 lines IH]; intros prices_list Hl Hp.
  - exists prices_list. split; [reflexivity | assumption].
  - inversion Hl as [|? ? Hl1 Hl2]; subst. cbn [price_lines_loop].
    destruct (negb (text_eqb elem2 []) && negb (text_eqb elem2 (str " ")));
      [|now apply IH].
    destruct (contains (str " ") elem2) eqn:E.
    + unfold split.
      pose proof (split_char_pieces " " (fun x => x <> nl) elem2 []
                    (Forall_nil _) Hl1) as Hp2.
      change (str " ") with [" "%char].
      change (str " ") with [" "%char] in E.
      destruct (split_contains [" "%char] elem2 [] ltac:(discriminate) E)
        as (a & b & rest & Es).
      rewrite Es in Hp2 |- *.
      inversion Hp2 as [|? ? Ha Hp3]; subst.
      inversion Hp3 as [|? ? Hb _]; subst.
      cbn [index nth_error rbind]. apply IH; [assumption|].
      apply Forall_app; split; [assumption|].
      constructor; [|constructor]. exists a, b.
      split; [reflexivity|].
      split; eapply Forall_impl; try eassumption; cbn; intros ? []; auto.
    + apply IH; [assumption|].
      apply Forall_app; split; [assumption|].
      constructor; [|constructor]. exists elem2, [].
      split; [reflexivity|]. split; [|constructor].
      change (str " ") with [" "%char] in E.
      apply contains_char_false in E.
      unfold plain_field, no_nl in *. rewrite Forall_forall in *.
      intros x Hx. split; [now apply E | now apply Hl1].
Qed.

Lemma prices_loop_shape (items : list fa_item) :
  forall prices_list : list (list text),
    (forall x, In x items -> exists s, x = FStr s) ->
    Forall price_entry prices_list ->
    exists out,
      prices_loop items prices_list = inr out /\ Forall price_entry out.
Proof.
  induction items as [|x items IH]; intros prices_list Hx Hp.
  - exists prices_list. split; [reflexivity | assumption].
  - destruct (Hx x (or_introl eq_refl)) as (s & ->).
    cbn [prices_loop item_split rbind].
    destruct (price_lines_loop_shape (split [nl] s) prices_list)
      as (out1 & -> & Hout1); [|assumption|].
    + rewrite <- lines_split. apply lines_no_nl.
    + cbn [rbind]. apply IH; [|assumption].
      intros y Hy. apply Hx. now right.
Qed.

Lemma raw_prices_shape (self : Receipt) :
  exists ps,
    get_raw_prices self = (inr ps, self) /\ Forall price_entry ps.
Proof.
  unfold get_raw_prices.
  rewrite bind_eq, get_all_matches_eq, lift_eq.
  destruct (prices_loop_shape (re_findall Pattern.prices (file self)) [])
    as (ps & -> & Hps); [apply prices_items | constructor |].
  eauto.
Qed.

(** X7: [get_raw_prices] never raises and leaves the object as it was; every
    entry of its list has exactly two fields, the amount and the tax code,
    and neither contains a space or a newline. *)
Theorem get_raw_prices_entries (self : Receipt) :
  exists ps,
    get_raw_prices self = (inr ps, self) /\ Forall price_entry ps.
Proof. exact (raw_prices_shape self). Qed.

(** ** The line items *)

Lemma digit_val_le (c : ascii) : is_digit c = true -> (digit_val c <= 9)%Z.
Proof.
  destruct c as [[] [] [] [] [] [] [] []]; vm_compute;
    try discriminate; intros _; discriminate.
Qed.

Lemma fold_digits_bound (ds : text) :
  forall acc : Z,
    (0 <= acc)%Z -> forallb is_digit ds = true ->
    (fold_left (fun a c => (10 * a + digit_val c)%Z) ds acc
     < (acc + 1) * 10 ^ Z.of_nat (length ds))%Z.
Proof.
  induction ds as [|d ds IH]; intros acc Hacc H.
  - cbn [fold_left length]. change (10 ^ Z.of_nat 0)%Z with 1%Z. lia.
  - cbn [forallb] in H. apply andb_true_iff in H as [Hd Hds].
    cbn [fold_left length].
    pose proof (digit_val_le d Hd) as Hle.
    destruct (digit_facts d Hd) as (_ & _ & _ & _ & _ & Hge).
    specialize (IH (10 * acc + digit_val d)%Z ltac:(lia) Hds).
    rewrite Nat2Z.inj_succ, Z.pow_succ_r by lia.
    assert (Hp : (0 < 10 ^ Z.of_nat (length ds))%Z)
      by (apply Z.pow_pos_nonneg; lia).
    nia.
Qed.

Lemma dval_bound (ds : text) :
  forallb is_digit ds = true ->
  (0 <= dval ds < 10 ^ Z.of_nat (length ds))%Z.
Proof.
  intros H. split; [now apply dval_nonneg|].
  pose proof (fold_digits_bound ds 0 ltac:(lia) H) as Hb.
  unfold dval. lia.
Qed.

Lemma py_int_error (s : text) (e : exn) : py_int s = inl e -> e = ValueError.
Proof.
  unfold py_int. destruct (int_signed _); [|congruence].
  destruct (_ <? _)%N; [congruence | discriminate].
Qed.

Lemma mapR_inr {A B} (f : A -> result B) (l : list A) :
  forall ys, mapR f l = inr ys -> Forall2 (fun x y => f x = inr y) l ys.
Proof.
  induction l as [|a l IH]; intros ys H; cbn [mapR] in H.
  - inversion H. constructor.
  - destruct (f a) as [e|b] eqn:Ea; [discriminate|]. cbn [rbind] in H.
    destruct (mapR f l) as [e|bs]; [discriminate|]. cbn [rbind] in H.
    inversion H; subst. constructor; [assumption | now apply IH].
Qed.

Lemma mapR_inl {A B} (f : A -> result B) (l : list A) (e : exn) :
  mapR f l = inl e -> exists x, In x l /\ f x = inl e.
Proof.
  induction l as [|a l IH]; intros H; cbn [mapR] in H; [discriminate|].
  destruct (f a) as [e'|b] eqn:Ea.
  - inversion H; subst. exists a. split; [now left | assumption].
  - cbn [rbind] in H. destruct (mapR f l) as [e'|bs]; [|discriminate].
    inversion H; subst. destruct (IH eq_refl) as (x & Hx & Hf).
    exists x. split; [now right | assumption].
Qed.

Lemma zip_records_length (ds ps : list (list text)) :
  length (zip_records ds ps) = Nat.min (length ds) (length ps).
Proof.
  revert ps. induction ds as [|d ds IH]; intros [|p ps]; simpl; auto.
Qed.

Lemma zip_records_in (ds ps : list (list text)) (x : list text) :
  In x (zip_records ds ps) ->
  exists d p, In d ds /\ In p ps /\ x = d ++ p.
Proof.
  revert ps. induction ds as [|d ds IH]; intros [|p ps] H;
    cbn [zip_records] in H; try contradiction.
  destruct H as [<-|H].
  - exists d, p. repeat split; now left.
  - destruct (IH _ H) as (d' & p' & Hd & Hp & ->).
    exists d', p'. repeat split; now right.
Qed.

Lemma sku_entry_pair (x : list text) : sku_entry x -> is_pair x.
Proof. now intros [(c & d & -> & _)| ->]. Qed.

Lemma price_entry_pair (x : list text) : price_entry x -> is_pair x.
Proof. now intros (a & b & -> & _). Qed.

(** A record kept by the filter, with its coercions. *)
Lemma kept_record (ds ps : list (list text)) (x : list text) :
  Forall sku_entry ds -> Forall price_entry ps ->
  In x (filter kept (zip_records ds ps)) ->
  exists code d a b,
    x = [code; d; a; b] /\ In [a; b] ps /\ length code = 13 /\
    forallb is_digit code = true /\ d <> [] /\ d <> str "SUBTOTAL" /\
    coerce x = rbind (py_int a) (fun t => inr (MkLineItem (dval code) d t b)).
Proof.
  intros Hds Hps Hx. apply filter_In in Hx as [Hx Hk].
  apply zip_records_in in Hx as (d0 & p0 & Hd0 & Hp0 & ->).
  rewrite Forall_forall in Hds, Hps.
  destruct (Hps _ Hp0) as (a & b & -> & _).
  destruct (Hds _ Hd0) as [(code & d & -> & Hl & Hdig & Hne)| ->].
  - exists code, d, a, b. cbn [app].
    unfold kept in Hk. cbn [length Nat.eqb nth andb] in Hk.
    apply negb_true_iff in Hk.
    repeat split; try assumption.
    + intros ->. now rewrite text_eqb_refl in Hk.
    + unfold coerce. cbn [nth].
      assert (Hi : is_integer_line code = true).
      { unfold is_integer_line. rewrite Hdig.
        destruct code; [discriminate Hl | reflexivity]. }
      assert (Hw : within_limit code = true)
        by (unfold within_limit; now rewrite Hl).
      now rewrite (py_int_digits_short code Hi Hw).
  - exfalso. unfold kept in Hk. cbn [app length Nat.eqb nth andb] in Hk.
    now rewrite text_eqb_refl in Hk.
Qed.

Lemma get_items_group_spec_eq (self : Receipt) (ds ps : list (list text)) :
  fst (get_raw_sku_and_descriptions self) = inr ds ->
  fst (get_raw_prices self) = inr ps ->
  Forall sku_entry ds /\ Forall price_entry ps /\
  fst (get_items_group self) = buildLineItems_spec ds ps.
Proof.
  intros H1 H2.
  destruct (raw_sku_shape self) as (ds' & E1 & Hds).
  destruct (raw_prices_shape self) as (ps' & E2 & Hps).
  rewrite E1 in H1. rewrite E2 in H2. cbn [fst] in H1, H2.
  inversion H1; inversion H2; subst ds' ps'.
  split; [assumption|]. split; [assumption|].
  unfold get_items_group. rewrite bind_eq, E1, bind_eq, E2, lift_eq.
  cbn [fst]. apply items_group_of_spec.
  - eapply Forall_impl; [apply sku_entry_pair | assumption].
  - eapply Forall_impl; [apply price_entry_pair | assumption].
Qed.

(** X8: the items [get_items_group] returns are at most as many as the
    shorter of the two raw lists; none is described as SUBTOTAL or has an
    empty description, and every [sku] is the value of a 13-digit code, so
    it lies between 0 and 10^13 - 1. *)
Theorem get_items_group_items (self : Receipt) (ds ps : list (list text))
  (items : list LineItem) :
  fst (get_raw_sku_and_descriptions self) = inr ds ->
  fst (get_raw_prices self) = inr ps ->
  fst (get_items_group self) = inr items ->
  length items <= Nat.min (length ds) (length ps) /\
  Forall (fun it =>
            description it <> str "SUBTOTAL" /\ description it <> [] /\
            (0 <= sku it < 10 ^ 13)%Z) items.
Proof.
  intros H1 H2 H3.
  destruct (get_items_group_spec_eq self ds ps H1 H2) as (Hds & Hps & E).
  rewrite E in H3. unfold buildLineItems_spec in H3.
  apply mapR_inr in H3. split.
  - rewrite <- (Forall2_length H3), <- zip_records_length.
    apply filter_length_le.
  - assert (Hall : forall l its,
              Forall2 (fun x y => coerce x = inr y) l its ->
              (forall x, In x l -> In x (filter kept (zip_records ds ps))) ->
              Forall (fun it =>
                description it <> str "SUBTOTAL" /\ description it <> [] /\
                (0 <= sku it < 10 ^ 13)%Z) its).
    { intros l its HF. induction HF as [|x it l its Hc _ IH]; intros Hl;
        constructor.
      - destruct (kept_record ds ps x Hds Hps (Hl x (or_introl eq_refl)))
          as (code & d & a & b & -> & _ & Hlen & Hdig & Hne & Hns & Ec).
        rewrite Ec in Hc. destruct (py_int a) as [e|t]; [discriminate|].
        cbn [rbind] in Hc. inversion Hc; subst it. cbn [description sku].
        repeat split; try assumption.
        + now apply dval_nonneg.
        + pose proof (dval_bound code Hdig) as Hb. rewrite Hlen in Hb.
          exact (proj2 Hb).
      - apply IH. intros y Hy. apply Hl. now right. }
    apply (Hall _ _ H3). auto.
Qed.

Lemma get_items_group_items_witness :
  (fst (get_raw_sku_and_descriptions (init full_example)) =
     inr [[str "1234567890123"; str "WIDGET"]; [[]; str "SUBTOTAL"]] /\
   fst (get_raw_prices (init full_example)) =
     inr [[str "500"; []]; [str "1000"; str "A"]; [str "77"; []];
          [str "600"; []]] /\
   fst (get_items_group (init full_example)) =
     inr [MkLineItem 1234567890123 (str "WIDGET") 500 []]) /\
  1 <= 2.
Proof.
  assert (H1 : fst (get_raw_sku_and_descriptions (init full_example)) =
     inr [[str "1234567890123"; str "WIDGET"]; [[]; str "SUBTOTAL"]])
    by (vm_compute; reflexivity).
  assert (H2 : fst (get_raw_prices (init full_example)) =
     inr [[str "500"; []]; [str "1000"; str "A"]; [str "77"; []];
          [str "600"; []]])
    by (vm_compute; reflexivity).
  assert (H3 : fst (get_items_group (init full_example)) =
     inr [MkLineItem 1234567890123 (str "WIDGET") 500 []])
    by (vm_compute; reflexivity).
  split; [repeat split; assumption|].
  exact (proj1 (get_items_group_items (init full_example) _ _ _ H1 H2 H3)).
Defined.

(** X9: [get_items_group] can only raise the ValueError of [int], and only
    on the amount of a price entry: the codes it coerces are strings of
    digits, and no index is out of range. *)
Theorem get_items_group_error (self : Receipt) (ps : list (list text))
  (e : exn) :
  fst (get_raw_prices self) = inr ps ->
  fst (get_items_group self) = inl e ->
  e = ValueError /\
  exists a b, In [a; b] ps /\ py_int a = inl ValueError.
Proof.
  intros H2 H3.
  destruct (raw_sku_shape self) as (ds & E1 & _).
  assert (H1 : fst (get_raw_sku_and_descriptions self) = inr ds)
    by now rewrite E1.
  destruct (get_items_group_spec_eq self ds ps H1 H2) as (Hds & Hps & E).
  rewrite E in H3. unfold buildLineItems_spec in H3.
  apply mapR_inl in H3 as (x & Hx & Hc).
  destruct (kept_record ds ps x Hds Hps Hx)
    as (code & d & a & b & -> & Hin & _ & _ & _ & _ & Ec).
  rewrite Ec in Hc. destruct (py_int a) as [e'|t] eqn:Ea; [|discriminate].
  cbn [rbind] in Hc. inversion Hc; subst e'.
  pose proof (py_int_error _ _ Ea) as ->.
  split; [reflexivity|]. now exists a, b.
Qed.

Lemma get_items_group_error_witness :
  (fst (get_raw_prices (init bad_price_example)) =
     inr [[str "12a"; []]; [str "1000"; str "A"]; [str "77"; []]] /\
   fst (get_items_group (init bad_price_example)) = inl ValueError) /\
  ValueError = ValueError.
Proof.
  assert (H2 : fst (get_raw_prices (init bad_price_example)) =
     inr [[str "12a"; []]; [str "1000"; str "A"]; [str "77"; []]])
    by (vm_compute; reflexivity).
  assert (H3 : fst (get_items_group (init bad_price_example)) =
                inl ValueError)
    by (vm_compute; reflexivity).
  split; [split; assumption|].
  exact (proj1 (get_items_group_error (init bad_price_example) _ _ H2 H3)).
Defined.

(** ** The shape of the address *)

Lemma lstrip_head (s : text) :
  match lstrip s with
  | [] => True
  | c :: _ => is_space c = false
  end.
Proof.
  induction s as [|c s IH]; simpl; [exact I|].
  destruct (is_space c) eqn:E; [exact IH | exact E].
Qed.

Lemma lstrip_suffix (s : text) : exists p, s = p ++ lstrip s.
Proof.
  induction s as [|c s IH]; simpl; [now exists []|].
  destruct (is_space c).
  - destruct IH as [p Hp]. exists (c :: p). simpl. now rewrite <- Hp.
  - now exists [].
Qed.

(** What [strip] returns is a part of the string, without whitespace at
    either end. *)
Lemma strip_spec (s : text) :
  (exists a b, s = a ++ strip s ++ b) /\
  match strip s with [] => True | c :: _ => is_space c = false end /\
  match rev (strip s) with [] => True | c :: _ => is_space c = false end.
Proof.
  unfold strip, rstrip.
  destruct (lstrip_suffix s) as [a Ha].
  destruct (lstrip_suffix (rev (lstrip s))) as [b Hb].
  assert (Hu : lstrip s = rev (lstrip (rev (lstrip s))) ++ rev b).
  { rewrite <- rev_app_distr, <- Hb. now rewrite rev_involutive. }
  split; [|split].
  - exists a, (rev b). now rewrite <- Hu.
  - pose proof (lstrip_head s) as Hh. rewrite Hu in Hh.
    destruct (rev (lstrip (rev (lstrip s)))); [exact I | exact Hh].
  - rewrite rev_involutive. apply lstrip_head.
Qed.

Lemma truncate_at_prefix (sep s : text) :
  exists x, s = truncate_at sep s ++ x.
Proof.
  induction s as [|c s IH]; [now exists []|].
  cbn [truncate_at]. destruct (startswith sep (c :: s)).
  - now exists (c :: s).
  - destruct IH as [x Hx]. exists x. simpl. now rewrite <- Hx.
Qed.

Lemma startswith_app_r (v w x : text) :
  startswith v w = true -> startswith v (w ++ x) = true.
Proof.
  revert w. induction v as [|a v IH]; intros w H; [reflexivity|].
  destruct w as [|b w]; simpl in H; [discriminate|].
  apply andb_true_iff in H as [E H]. simpl. now rewrite E, IH.
Qed.

Lemma contains_app_r (sep w x : text) :
  sep <> [] -> contains sep w = true -> contains sep (w ++ x) = true.
Proof.
  intros Hsep. induction w as [|c w IH]; intros H.
  - simpl in H. destruct sep; [congruence | discriminate].
  - cbn [contains] in H. cbn [app contains].
    apply orb_true_iff in H as [H|H]; apply orb_true_iff.
    + left. now apply (startswith_app_r sep (c :: w) x).
    + right. now apply IH.
Qed.

Lemma contains_app_l (sep a w : text) :
  contains sep w = true -> contains sep (a ++ w) = true.
Proof.
  intros H. induction a as [|c a IH]; [exact H|].
  cbn [app contains]. rewrite IH. apply orb_true_r.
Qed.

(** The part before the first occurrence of the separator does not contain
    it. *)
Lemma truncate_at_free (sep s : text) :
  sep <> [] -> contains sep (truncate_at sep s) = false.
Proof.
  intros Hsep. induction s as [|c s IH].
  - simpl. destruct sep; [congruence | reflexivity].
  - cbn [truncate_at]. destruct (startswith sep (c :: s)) eqn:E.
    + simpl. destruct sep; [congruence | reflexivity].
    + cbn [contains]. rewrite IH, orb_false_r.
      destruct (startswith sep (c :: truncate_at sep s)) eqn:E2;
        [|reflexivity].
      destruct (truncate_at_prefix sep s) as [x Hx].
      apply (startswith_app_r _ _ x) in E2. cbn [app] in E2.
      rewrite <- Hx in E2. congruence.
Qed.

Lemma line_before_vendedor_in (ls : list text) (l : text) :
  line_before_vendedor ls = Some l -> In l ls.
Proof.
  induction ls as [|a ls IH]; [discriminate|].
  destruct ls as [|b ls]; [discriminate|].
  cbn [line_before_vendedor].
  destruct (startswith (str "VENDEDOR") b).
  - intros H. inversion H. now left.
  - intros H. right. now apply IH.
Qed.

Lemma address_shape (self : Receipt) (a : text) :
  fst (get_address self) = inr a ->
  no_nl a /\ contains (str "TEL:") a = false /\
  match a with [] => True | c :: _ => is_space c = false end /\
  match rev a with [] => True | c :: _ => is_space c = false end.
Proof.
  rewrite get_address_eq. cbn [fst].
  destruct (line_before_vendedor (lines (file self))) as [l|] eqn:El;
    [|discriminate].
  intros H.
  assert (Ea : a = strip (truncate_at (str "TEL:") l)) by congruence.
  subst a. clear H.
  destruct (strip_spec (truncate_at (str "TEL:") l))
    as ((x & y & Hxy) & Hh & Ht).
  destruct (truncate_at_prefix (str "TEL:") l) as [z Hz].
  split; [|split; [|split; assumption]].
  - apply line_before_vendedor_in in El.
    pose proof (lines_no_nl (file self)) as Hn.
    rewrite Forall_forall in Hn. specialize (Hn l El).
    rewrite Hz, Hxy in Hn. unfold no_nl in *.
    apply Forall_app in Hn as [Hn _]. apply Forall_app in Hn as [_ Hn].
    now apply Forall_app in Hn as [Hn _].
  - destruct (contains (str "TEL:") (strip (truncate_at (str "TEL:") l)))
      eqn:Ec; [|reflexivity].
    apply (contains_app_r (str "TEL:") _ y) in Ec; [|discriminate].
    apply (contains_app_l _ x) in Ec. rewrite <- Hxy in Ec.
    rewrite truncate_at_free in Ec; [discriminate Ec | discriminate].
Qed.

(** X10: an address that [get_address] returns contains no newline and no
    "TEL:", and neither begins nor ends with a whitespace character. *)
Theorem get_address_clean (self : Receipt) (a : text) :
  fst (get_address self) = inr a ->
  no_nl a /\ contains (str "TEL:") a = false /\
  match a with [] => True | c :: _ => is_space c = false end /\
  match rev a with [] => True | c :: _ => is_space c = false end.
Proof. apply address_shape. Qed.

Lemma get_address_clean_witness :
  fst (get_address (init address_one_line_example)) =
    inr (str "123 Main St") /\
  no_nl (str "123 Main St").
Proof.
  assert (H : fst (get_address (init address_one_line_example)) =
              inr (str "123 Main St")) by (vm_compute; reflexivity).
  split; [exact H|].
  exact (proj1 (get_address_clean (init address_one_line_example) _ H)).
Defined.

(** ** The dictionary and the file name *)

(** [get_receipt_dictionary] in terms of the six extractors, each run on the
    object as it was. *)
Lemma get_receipt_dictionary_eq (self : Receipt) :
  fst (get_receipt_dictionary self) =
  rbind (fst (get_date self)) (fun d =>
  rbind (fst (get_address self)) (fun a =>
  rbind (fst (get_invoice_number self)) (fun n =>
  rbind (fst (get_subtotal self)) (fun s =>
  rbind (fst (get_total self)) (fun t =>
  rbind (fst (get_items_group self)) (fun l =>
  inr (MkReceiptDict d a n s t l))))))).
Proof.
  unfold get_receipt_dictionary.
  rewrite (get_items_group_pure self), get_total_eq, get_subtotal_eq.
  rewrite bind_eq, !get_date_eq. cbn [fst].
  destruct (re_search Pattern.date (file self)); [|reflexivity].
  rewrite bind_eq, !get_address_eq. cbn [fst rbind].
  destruct (line_before_vendedor _); [|reflexivity].
  rewrite bind_eq, !get_invoice_number_eq. cbn [fst rbind].
  destruct (re_search Pattern.invoice_number (file self)); [|reflexivity].
  rewrite bind_eq, get_subtotal_eq. cbn [fst rbind].
  destruct (numbers_parse (file self)) eqn:Ep; [|reflexivity].
  cbn [fst andb].
  destruct (py_max _) eqn:Emax; [reflexivity|].
  rewrite bind_eq, get_total_eq. cbn [init file rbind]. rewrite Ep.
  rewrite andb_true_r.
  destruct (discounts_parse (file self)); [|reflexivity].
  rewrite Emax. cbn [fst rbind].
  rewrite bind_eq, (get_items_group_pure (MkReceipt _ _)). cbn [init file].
  now destruct (fst (get_items_group (init (file self)))).
Qed.

Lemma get_date_shape (self : Receipt) (d : text) :
  fst (get_date self) = inr d -> is_date_line d = true.
Proof.
  rewrite get_date_eq. cbn [fst].
  pose proof (date_search (file self)) as Hs.
  destruct (re_search Pattern.date (file self)) as [mt|]; [|discriminate].
  intros H. inversion H; subst d. cbn [option_map] in Hs.
  symmetry in Hs. now apply find_some in Hs as [_ Hs].
Qed.

Lemma get_invoice_number_no_nl (self : Receipt) (n : text) :
  fst (get_invoice_number self) = inr n -> no_nl n.
Proof.
  rewrite get_invoice_number_eq. cbn [fst].
  pose proof (invoice_search (file self)) as Hs.
  destruct (re_search Pattern.invoice_number (file self)) as [mt|];
    [|discriminate].
  intros H. inversion H; subst n. cbn [option_map] in Hs.
  symmetry in Hs. now apply after_tiquete_no_nl in Hs.
Qed.

Lemma total_bounds (self : Receipt) (s t : Z) :
  fst (get_subtotal self) = inr s -> fst (get_total self) = inr t ->
  (0 <= t <= s)%Z.
Proof.
  intros Hs Ht.
  apply get_total_inr in Ht as (_ & _ & s' & Hmax & ->).
  apply get_subtotal_inr in Hs as [_ Hs].
  assert (s' = s) by congruence. subst s'.
  pose proof (discounts_nonpos (file self)) as Hd.
  destruct (py_max_spec _ _ Hs) as [Hin _].
  destruct (py_in _ _) eqn:Ein.
  - apply py_in_spec in Ein. apply numbers_nonneg in Ein. lia.
  - apply numbers_nonneg in Hin. lia.
Qed.

(** X12: the fields of a dictionary that [get_receipt_dictionary] returns
    are what the six extractors return on the same object, and they satisfy:
    the date has the form dd/dd/dddd, the address and the invoice number
    contain no newline, and 0 <= total <= subtotal. *)
Theorem get_receipt_dictionary_fields (self : Receipt) (d : ReceiptDict) :
  fst (get_receipt_dictionary self) = inr d ->
  (fst (get_date self) = inr (date d) /\
   fst (get_address self) = inr (storeAddress d) /\
   fst (get_invoice_number self) = inr (invoiceNumber d) /\
   fst (get_subtotal self) = inr (subtotal d) /\
   fst (get_total self) = inr (total_ d) /\
   fst (get_items_group self) = inr (lineItems d)) /\
  is_date_line (date d) = true /\
  no_nl (storeAddress d) /\
  no_nl (invoiceNumber d) /\
  (0 <= total_ d <= subtotal d)%Z.
Proof.
  rewrite get_receipt_dictionary_eq. intros H.
  destruct (fst (get_date self)) as [|dt] eqn:E1; [discriminate|].
  destruct (fst (get_address self)) as [|ad] eqn:E2; [discriminate|].
  destruct (fst (get_invoice_number self)) as [|nb] eqn:E3; [discriminate|].
  destruct (fst (get_subtotal self)) as [|sb] eqn:E4; [discriminate|].
  destruct (fst (get_total self)) as [|tt] eqn:E5; [discriminate|].
  destruct (fst (get_items_group self)) as [|it] eqn:E6; [discriminate|].
  cbn [rbind] in H. inversion H; subst d.
  cbn [date storeAddress invoiceNumber subtotal total_ lineItems].
  split; [repeat split|].
  split; [now apply (get_date_shape self)|].
  split; [now apply (address_shape self)|].
  split; [now apply (get_invoice_number_no_nl self)|].
  now apply (total_bounds self).
Qed.

Lemma get_receipt_dictionary_fields_witness :
  fst (get_receipt_dictionary (init full_example)) =
    inr (MkReceiptDict (str "01/02/2023") (str "TIENDA 1 CRA 7")
           (str "00045") 600 500
           [MkLineItem 1234567890123 (str "WIDGET") 500 []]) /\
  (0 <= 500 <= 600)%Z.
Proof.
  assert (H : fst (get_receipt_dictionary (init full_example)) =
    inr (MkReceiptDict (str "01/02/2023") (str "TIENDA 1 CRA 7")
           (str "00045") 600 500
           [MkLineItem 1234567890123 (str "WIDGET") 500 []]))
    by (vm_compute; reflexivity).
  split; [exact H|].
  exact (proj2 (proj2 (proj2 (proj2
           (get_receipt_dictionary_fields (init full_example) _ H))))).
Defined.

(** X13: [get_receipt_dictionary] returns a dictionary exactly when the
    six extractors [get_date], [get_address], [get_invoice_number],
    [get_subtotal], [get_total] and [get_items_group] all return on the same
    object; when one of them raises, the error it raises is the error of
    the first extractor, in this order, that raises. *)
Theorem get_receipt_dictionary_succeeds_iff (self : Receipt) :
  ((exists d, fst (get_receipt_dictionary self) = inr d) <->
   (exists dt ad nb sb tt it,
      fst (get_date self) = inr dt /\
      fst (get_address self) = inr ad /\
      fst (get_invoice_number self) = inr nb /\
      fst (get_subtotal self) = inr sb /\
      fst (get_total self) = inr tt /\
      fst (get_items_group self) = inr it)) /\
  (forall e, fst (get_receipt_dictionary self) = inl e <->
     first_error [erase (fst (get_date self));
                  erase (fst (get_address self));
                  erase (fst (get_invoice_number self));
                  erase (fst (get_subtotal self));
                  erase (fst (get_total self));
                  erase (fst (get_items_group self))] = Some e).
Proof.
  rewrite get_receipt_dictionary_eq. split; [split|].
  - intros [d H].
    destruct (fst (get_date self)) as [|dt]; [discriminate|].
    destruct (fst (get_address self)) as [|ad]; [discriminate|].
    destruct (fst (get_invoice_number self)) as [|nb]; [discriminate|].
    destruct (fst (get_subtotal self)) as [|sb]; [discriminate|].
    destruct (fst (get_total self)) as [|tt]; [discriminate|].
    destruct (fst (get_items_group self)) as [|it]; [discriminate|].
    now exists dt, ad, nb, sb, tt, it.
  - intros (dt & ad & nb & sb & tt & it & -> & -> & -> & -> & -> & ->).
    cbn [rbind]. eauto.
  - intros e.
    destruct (fst (get_date self)) as [|dt]; cbn [rbind erase first_error];
      [split; congruence|].
    destruct (fst (get_address self)) as [|ad];
      cbn [rbind erase first_error]; [split; congruence|].
    destruct (fst (get_invoice_number self)) as [|nb];
      cbn [rbind erase first_error]; [split; congruence|].
    destruct (fst (get_subtotal self)) as [|sb];
      cbn [rbind erase first_error]; [split; congruence|].
    destruct (fst (get_total self)) as [|tt];
      cbn [rbind erase first_error]; [split; congruence|].
    destruct (fst (get_items_group self)) as [|it];
      cbn [rbind erase first_error]; split; congruence.
Qed.

(** ** The name of the JSON file *)

Lemma replace_char (a b : ascii) (s : text) :
  replace [a] [b] s = map (fun c => if Ascii.eqb a c then b else c) s.
Proof.
  unfold replace. induction s as [|c s IH]; [reflexivity|].
  cbn [replace_aux startswith length Nat.sub map].
  destruct (Ascii.eqb a c); cbn [andb app]; now rewrite IH.
Qed.

Lemma replace_space_plain (s : text) :
  no_nl s -> plain_field (replace (str " ") (str "_") s).
Proof.
  intros H. change (str " ") with [" "%char]. change (str "_") with ["_"%char].
  rewrite replace_char. unfold plain_field, no_nl in *.
  apply Forall_map. eapply Forall_impl; [|exact H].
  intros c Hc. cbn beta. destruct (Ascii.eqb_spec " " c) as [<-|Hne].
  - split; discriminate.
  - split; congruence.
Qed.

Lemma json_file_name_plain (d : ReceiptDict) :
  no_nl (invoiceNumber d) -> plain_field (json_file_name d).
Proof.
  intros H. unfold json_file_name, plain_field.
  pose proof (replace_space_plain _ H) as Hp. unfold plain_field in Hp.
  assert (H1 : Forall (fun c => c <> " "%char /\ c <> nl) (str "sample"))
    by (repeat constructor; discriminate).
  assert (H2 : Forall (fun c => c <> " "%char /\ c <> nl) (str ".json"))
    by (repeat constructor; discriminate).
  assert (H3 : Forall (fun c => c <> " "%char /\ c <> nl) (str "_"))
    by (repeat constructor; discriminate).
  destruct (negb (text_eqb _ [])); repeat (apply Forall_app; split);
    assumption.
Qed.

Lemma json_file_name_sample (d : ReceiptDict) :
  json_file_name d = str "sample.json" <-> invoiceNumber d = [].
Proof.
  unfold json_file_name.
  change (str " ") with [" "%char]. change (str "_") with ["_"%char].
  rewrite replace_char.
  destruct (invoiceNumber d) as [|c n]; cbn [map text_eqb].
  - split; reflexivity.
  - split; [|discriminate].
    destruct (negb (text_eqb _ _)) eqn:E.
    + cbn. intros H. inversion H.
    + apply negb_false_iff, text_eqb_eq in E. discriminate.
Qed.

(** X11: the name of the file [create_json_file] writes is "sample",
    optionally "_" and the invoice number with its spaces replaced, and
    ".json"; it never contains a space or a newline, and it is "sample.json"
    exactly when the invoice number is empty.  No name is computed when
    [get_receipt_dictionary] raises. *)
Theorem create_json_file_name_plain (self : Receipt) (n : text) :
  fst (create_json_file_name self) = inr n ->
  plain_field n /\
  (n = str "sample.json" <-> fst (get_invoice_number self) = inr []) /\
  exists d, fst (get_receipt_dictionary self) = inr d /\
            n = json_file_name d.
Proof.
  unfold create_json_file_name. rewrite bind_eq.
  destruct (get_receipt_dictionary self) as [[e|d] self'] eqn:Ed;
    [discriminate|].
  rewrite ret_eq. cbn [fst]. intros H. inversion H; subst n. clear H.
  assert (Hd : fst (get_receipt_dictionary self) = inr d) by now rewrite Ed.
  pose proof Hd as Hd'. rewrite get_receipt_dictionary_eq in Hd'.
  destruct (fst (get_date self)) as [|dt]; [discriminate|].
  destruct (fst (get_address self)) as [|ad]; [discriminate|].
  destruct (fst (get_invoice_number self)) as [|nb] eqn:E3; [discriminate|].
  destruct (fst (get_subtotal self)) as [|sb]; [discriminate|].
  destruct (fst (get_total self)) as [|tt]; [discriminate|].
  destruct (fst (get_items_group self)) as [|it]; [discriminate|].
  cbn [rbind] in Hd'. inversion Hd'; subst d.
  split; [|split].
  - apply json_file_name_plain. cbn [invoiceNumber].
    now apply (get_invoice_number_no_nl self).
  - rewrite json_file_name_sample. cbn [invoiceNumber].
    split; [intros ->; reflexivity | intros H; now inversion H].
  - eauto.
Qed.

Lemma create_json_file_name_plain_witness :
  fst (create_json_file_name (init full_example)) =
    inr (str "sample_00045.json") /\
  plain_field (str "sample_00045.json").
Proof.
  assert (H : fst (create_json_file_name (init full_example)) =
              inr (str "sample_00045.json")) by (vm_compute; reflexivity).
  split; [exact H|].
  exact (proj1 (create_json_file_name_plain (init full_example) _ H)).
Defined.
